(** * Crew builder: sequential dispatch and report assembly

    A shallow embedding of [crew_builder_croq_fancy.py].  The script has three
    parts: a collector that reads the widgets into [agent_configs], the
    dispatcher [create_and_run_crew] that awaits one remote call per
    configuration, and [handle_crew_creation], which guards on the credential,
    builds the model handle, dispatches, renders and assembles the report that
    is stored in [st.session_state.download_content].

    Everything the script does not implement itself (the agent runtime, the
    remote completion service, the wall clock, the data frame display) is a
    field of the class [Externals], and the widgets are a record [Frontend]:
    the theorems hold for every behaviour of those parts.  [await] is
    sequential in the source, so a call is a step of the state monad. *)

From stdpp Require Import base strings gmap list pretty.

#[local] Arguments String.append !_ _ / : simpl nomatch.


(** ** Python values used by the script *)

(** An instance of [Exception], the class that both [except] clauses of the
    script name; only [str(e)] is ever observed.  What the runtime may raise
    outside that class ([asyncio.CancelledError], [KeyboardInterrupt]) is not
    modelled: the statements below are about calls that return or raise an
    [Exception]. *)
Inductive Exn : Type := Exception (msg : string).

Definition str (e : Exn) : string := let 'Exception m := e in m.

(** The line feed written [\n] in the source. *)
Definition nl : string := String (Ascii.ascii_of_nat 10) "".

(** [s * n] on strings. *)
Fixpoint str_mul (s : string) (n : nat) : string :=
  match n with
  | O => ""
  | S n' => s +:+ str_mul s n'
  end.

(** [enumerate(l)], counting from [i]. *)
Fixpoint enumerate_from {A : Type} (i : nat) (l : list A) : list (nat * A) :=
  match l with
  | [] => []
  | x :: l' => (i, x) :: enumerate_from (S i) l'
  end.

Definition enumerate {A : Type} (l : list A) : list (nat * A) := enumerate_from 0 l.

(** Truthiness of an optional string: [None] and [""] are falsy. *)
Definition truthy (s : option string) : bool :=
  match s with
  | None => false
  | Some "" => false
  | Some _ => true
  end.

(** [a in s] for a single character. *)
Fixpoint contains (a : Ascii.ascii) (s : string) : bool :=
  match s with
  | "" => false
  | String b s' => Ascii.eqb a b || contains a s'
  end.

(** The string holds a NUL byte. *)
Definition has_nul (s : string) : bool := contains Ascii.zero s.

(** The [ValueError] of [os.environ] for a NUL byte in a name or a value. *)
Definition nul_error : Exn := Exception "embedded null byte".

(** The [ValueError] of [os.environ] for an empty name or one with [=]. *)
Definition name_error : Exn := Exception "illegal environment variable name".

(** One entry of [agent_configs]: a dict with the keys ["name"] and
    ["instructions"]. *)
Record AgentConfig : Type := { name : string; instructions : string }.

(** What the script reads of a run result. *)
Record RunResult : Type := { final_output : string }.

(** A row of the summary table. *)
Record SummaryRow : Type :=
  { row_agent : string; row_instructions : string; row_output : string }.

(** The separator between an agent's instructions and the shared context. *)
Definition context_label : string := nl +:+ nl +:+ "Additional Context: ".

(** The prompt of line 109. *)
Definition prompt_of (config : AgentConfig) (human_input : string) : string :=
  instructions config +:+ context_label +:+ human_input.

(** What one pass of the loop body does to the control flow: fall through to
    the next configuration with the updated locals, or leave the function. *)
Inductive Flow (L R : Type) : Type :=
| Next (locals : L)
| Return (value : R).
Arguments Next {L R} _.
Arguments Return {L R} _.

(** ** The widgets (lines 154-215) *)

(** The front end of one rerun of the script.  A text widget returns what the
    user typed under its key, or its default value, the empty string; the
    number widget is given its bounds and default and returns its current
    value; [clicked] tells whether 'Create Crew' was pressed. *)
Record Frontend : Type :=
  { number_input : Z → Z → Z → Z;
    typed : gmap string string;
    clicked : bool }.

Definition st_text_input (fe : Frontend) (key : string) : string :=
  default "" (typed fe !! key).

Definition st_text_area (fe : Frontend) (key : string) : string :=
  default "" (typed fe !! key).

(** [range(n)]. *)
Definition range (n : Z) : list nat := seq 0 (Z.to_nat n).

(** The loop of lines 202-215. *)
Fixpoint collect_loop (fe : Frontend) (indices : list nat)
    (agent_configs : list AgentConfig) : list AgentConfig :=
  match indices with
  | [] => agent_configs
  | i :: rest =>
      let agent_name := st_text_input fe ("name_" +:+ pretty i) in
      let instructions := st_text_area fe ("instructions_" +:+ pretty i) in
      collect_loop fe rest
        (agent_configs ++ [ {| name := agent_name; instructions := instructions |} ])
  end.

(** What the loop appends for index [i]. *)
Definition config_at (fe : Frontend) (i : nat) : AgentConfig :=
  {| name := default "" (typed fe !! ("name_" +:+ pretty i));
     instructions := default "" (typed fe !! ("instructions_" +:+ pretty i)) |}.

(** The number widget keeps its value within the bounds it was given. *)
Definition widget_contract (fe : Frontend) : Prop :=
  ∀ lo hi v : Z, (lo ≤ v ≤ hi)%Z → (lo ≤ number_input fe lo hi v ≤ hi)%Z.

(** Lines 192-215: [number_of_agents] and [agent_configs]. *)
Definition number_of_agents (fe : Frontend) : Z := number_input fe 1 10 1.

Definition collect_agent_configs (fe : Frontend) : list AgentConfig :=
  collect_loop fe (range (number_of_agents fe)) [].

Section Objects.

(** The [AsyncOpenAI] client object. *)
Context {Client : Type}.

Record Model : Type := { model : string; openai_client : Client }.

Record Agent : Type :=
  { agent_name : string; agent_instructions : string; agent_model : Model }.

End Objects.

Arguments Model : clear implicits.
Arguments Agent : clear implicits.

(** ** What the script calls but does not implement *)

Class Externals : Type :=
{ (** The world outside the process: remote service and clock. *)
  Ext : Type;
  Client : Type;
  (** [AsyncOpenAI(base_url=...)]: reads the process environment, may raise. *)
  AsyncOpenAI_init : gmap string string → string → Exn + Client;
  (** [Agent(...)]: the constructor may reject its arguments. *)
  Agent_init : string → string → Model Client → option Exn;
  (** [Runner.run(agent, prompt)]: one round trip to the remote service. *)
  Runner_run : Agent Client → string → Ext → Ext * (Exn + RunResult);
  (** [datetime.now().strftime("%Y-%m-%d %H:%M:%S")]. *)
  datetime_now : Ext → Ext * string;
  (** [pd.DataFrame(summary_data)] and [st.dataframe], which may raise. *)
  st_dataframe : list SummaryRow → option Exn }.

Section Program.

Context {X : Externals}.

Abbreviation Agent := (Agent Client).
Abbreviation Model := (Model Client).

(** Observable actions, in the order they happen. *)
Inductive Event : Type :=
| EvError (msg : string)
| EvClient (base_url : string)
| EvRun (agent : Agent) (prompt : string) (outcome : Exn + RunResult)
| EvExpander (label task output : string)
| EvDataframe (rows : list SummaryRow).

(** The state the script can change or observe.  [download_content] is
    [st.session_state.download_content], which lines 9-10 initialise to [None];
    [trace] records what was done, in order. *)
Record World : Type :=
  { ext : Ext;
    environ : gmap string string;
    download_content : option string;
    trace : list Event }.

(** ** State and exception monad *)

Definition M (A : Type) : Type := World → World * (Exn + A).

#[export] Instance M_ret : MRet M := λ A a w, (w, inr a).

#[export] Instance M_bind : MBind M := λ A B f m w,
  match m w with
  | (w', inl e) => (w', inl e)
  | (w', inr a) => f a w'
  end.

Definition raise {A : Type} (e : Exn) : M A := λ w, (w, inl e).

(** [try: body except Exception as e: handler e]. *)
Definition try_except {A : Type} (body : M A) (handler : Exn → M A) : M A :=
  λ w, match body w with
       | (w', inl e) => handler e w'
       | (w', inr a) => (w', inr a)
       end.

Definition emit (ev : Event) : M unit := λ w,
  ({| ext := ext w; environ := environ w;
      download_content := download_content w;
      trace := trace w ++ [ev] |}, inr tt).

Definition st_error (msg : string) : M unit := emit (EvError msg).

(** [os.environ[k] = v]: raises [ValueError] when the name or the value holds
    a NUL byte, or when the name is empty or holds [=]; otherwise the variable
    is set. *)
Definition environ_set (k v : string) : M unit := λ w,
  if has_nul k || has_nul v then (w, inl nul_error)
  else if bool_decide (k = "") || contains (Ascii.ascii_of_nat 61) k
  then (w, inl name_error)
  else ({| ext := ext w; environ := <[k := v]> (environ w);
           download_content := download_content w;
           trace := trace w |}, inr tt).

(** [st.session_state.download_content = text]. *)
Definition session_state_set_download_content (text : string) : M unit := λ w,
  ({| ext := ext w; environ := environ w;
      download_content := Some text;
      trace := trace w |}, inr tt).

(** The constructor call is recorded whether or not it raises. *)
Definition AsyncOpenAI (base_url : string) : M Client := λ w,
  ({| ext := ext w; environ := environ w;
      download_content := download_content w;
      trace := trace w ++ [EvClient base_url] |},
   AsyncOpenAI_init (environ w) base_url).

Definition new_Agent (n i : string) (m : Model) : M Agent :=
  match Agent_init n i m with
  | Some e => raise e
  | None => mret {| agent_name := n; agent_instructions := i; agent_model := m |}
  end.

Definition await_Runner_run (agent : Agent) (prompt : string) : M RunResult := λ w,
  let '(x, out) := Runner_run agent prompt (ext w) in
  ({| ext := x; environ := environ w;
      download_content := download_content w;
      trace := trace w ++ [EvRun agent prompt out] |}, out).

Definition now_strftime : M string := λ w,
  let '(x, ts) := datetime_now (ext w) in
  ({| ext := x; environ := environ w;
      download_content := download_content w;
      trace := trace w |}, inr ts).

(** [l[i]], raising [IndexError] out of range. *)
Definition getitem {A : Type} (l : list A) (i : nat) : M A :=
  match l !! i with
  | Some x => mret x
  | None => raise (Exception "list index out of range")
  end.

(** ** [create_and_run_crew] (lines 95-116) *)

Definition CrewValue : Type := option (list Agent) * option (list RunResult).

(** [Agent(name=config["name"], instructions=config["instructions"],
    model=model)], when the constructor accepts. *)
Definition agent_of (m : Model) (config : AgentConfig) : Agent :=
  {| agent_name := name config;
     agent_instructions := instructions config;
     agent_model := m |}.

(** [f"Error creating agent: {str(e)}"]. *)
Definition creating_error (e : Exn) : string := "Error creating agent: " +:+ str e.

(** The [try] block of lines 101-110. *)
Definition crew_try (human_input : string) (m : Model) (config : AgentConfig)
    (agentlist : list Agent) (results : list RunResult)
    : M (Flow (list Agent * list RunResult) CrewValue) :=
  agent ← new_Agent (name config) (instructions config) m;
  let agentlist := agentlist ++ [agent] in
  result ← await_Runner_run agent (prompt_of config human_input);
  let results := results ++ [result] in
  mret (Next (agentlist, results)).

(** The loop body with its [except] clause (lines 100-114). *)
Definition crew_body (human_input : string) (m : Model) (config : AgentConfig)
    (agentlist : list Agent) (results : list RunResult)
    : M (Flow (list Agent * list RunResult) CrewValue) :=
  try_except
    (crew_try human_input m config agentlist results)
    (λ e,
     st_error (creating_error e);;
     mret (Return (None, None))).

Fixpoint crew_loop (human_input : string) (m : Model)
    (agent_configs : list AgentConfig)
    (agentlist : list Agent) (results : list RunResult) : M CrewValue :=
  match agent_configs with
  | [] => mret (Some agentlist, Some results)
  | config :: rest =>
      flow ← crew_body human_input m config agentlist results;
      match flow with
      | Next (agentlist, results) => crew_loop human_input m rest agentlist results
      | Return v => mret v
      end
  end.

Definition create_and_run_crew (agent_configs : list AgentConfig)
    (human_input : string) (m : Model) : M CrewValue :=
  crew_loop human_input m agent_configs [] [].


(** ** [handle_crew_creation] (lines 12-93) *)

(** [os.environ[k] = v] accepts strings only. *)
Definition as_str (v : option string) : M string :=
  match v with
  | Some s => mret s
  | None => raise (Exception "str expected, not NoneType")
  end.

(** [enumerate(results)] needs an iterable. *)
Definition iterable {A : Type} (v : option (list A)) : M (list A) :=
  match v with
  | Some l => mret l
  | None => raise (Exception "'NoneType' object is not iterable")
  end.

(** [f"Agent {i+1}: {name}"]. *)
Definition agent_label (i : nat) (n : string) : string :=
  "Agent " +:+ pretty (i + 1) +:+ ": " +:+ n.

(** The "Detailed Output" tab (lines 38-44). *)
Fixpoint show_detailed (agent_configs : list AgentConfig)
    (indexed : list (nat * RunResult)) : M unit :=
  match indexed with
  | [] => mret tt
  | (i, result) :: rest =>
      c ← getitem agent_configs i;
      c' ← getitem agent_configs i;
      emit (EvExpander (agent_label i (name c)) (instructions c')
              (final_output result));;
      show_detailed agent_configs rest
  end.

(** The rows of the "Summary" tab (lines 48-54). *)
Fixpoint build_summary (agent_configs : list AgentConfig)
    (indexed : list (nat * RunResult)) (summary_data : list SummaryRow)
    : M (list SummaryRow) :=
  match indexed with
  | [] => mret summary_data
  | (i, result) :: rest =>
      c ← getitem agent_configs i;
      c' ← getitem agent_configs i;
      build_summary agent_configs rest
        (summary_data ++ [ {| row_agent := pretty (i + 1) +:+ ": " +:+ name c;
                              row_instructions := instructions c';
                              row_output := final_output result |} ])
  end.

(** Lines 55-56. *)
Definition show_dataframe (summary_data : list SummaryRow) : M unit :=
  match st_dataframe summary_data with
  | Some e => raise e
  | None => emit (EvDataframe summary_data)
  end.

(** The first f-string of the report (lines 59-70). *)
Definition report_part1 (timestamp human_input : string) : string :=
  "AUTONOMOUS CREW BUILDER - COMPLETE REPORT" +:+ nl +:+
  str_mul "=" 50 +:+ nl +:+
  nl +:+
  "PART 1: CREW CONFIGURATION" +:+ nl +:+
  str_mul "=" 50 +:+ nl +:+
  "Timestamp: " +:+ timestamp +:+ nl +:+
  nl +:+
  "Additional Context:" +:+ nl +:+
  human_input +:+ nl +:+
  nl +:+
  "Agent Configurations:" +:+ nl.

(** The loop of lines 71-74. *)
Fixpoint report_configs (indexed : list (nat * AgentConfig))
    (combined_text : string) : string :=
  match indexed with
  | [] => combined_text
  | (i, config) :: rest =>
      let combined_text :=
        combined_text +:+ (nl +:+ agent_label i (name config) +:+ nl) in
      let combined_text :=
        combined_text +:+ ("Instructions:" +:+ nl +:+ instructions config +:+ nl) in
      let combined_text := combined_text +:+ (str_mul "-" 50 +:+ nl) in
      report_configs rest combined_text
  end.

(** The second f-string (lines 76-83). *)
Definition report_part2 (timestamp : string) : string :=
  nl +:+
  str_mul "=" 50 +:+ nl +:+
  "PART 2: CREW RESULTS" +:+ nl +:+
  str_mul "=" 50 +:+ nl +:+
  "Timestamp: " +:+ timestamp +:+ nl +:+
  nl +:+
  "Results by Agent:" +:+ nl.

(** The loop of lines 84-87. *)
Fixpoint report_results (agent_configs : list AgentConfig)
    (indexed : list (nat * RunResult)) (combined_text : string) : M string :=
  match indexed with
  | [] => mret combined_text
  | (i, result) :: rest =>
      c ← getitem agent_configs i;
      let combined_text :=
        combined_text +:+ (nl +:+ agent_label i (name c) +:+ nl) in
      let combined_text :=
        combined_text +:+ ("Output:" +:+ nl +:+ final_output result +:+ nl) in
      let combined_text := combined_text +:+ (str_mul "-" 50 +:+ nl) in
      report_results agent_configs rest combined_text
  end.

Definition missing_key_message : string :=
  "Please enter your GROQ API key in the sidebar!".

Definition groq_base_url : string := "https://api.groq.com/openai/v1".

Definition groq_model (client : Client) : Model :=
  {| model := "llama-3.1-8b-instant"; openai_client := client |}.

(** The [try] block of lines 18-90.  [st.spinner] only decorates the page and
    is left out. *)
Definition crew_creation_try (agent_configs : list AgentConfig)
    (human_input : string) (groq_api_key : option string) : M unit :=
  key ← as_str groq_api_key;
  environ_set "OPENAI_API_KEY" key;;
  client ← AsyncOpenAI groq_base_url;
  let m := groq_model client in
  '(tasklist, results) ← create_and_run_crew agent_configs human_input m;
  match tasklist with
  | None => mret tt
  | Some _ =>
      rs ← iterable results;
      show_detailed agent_configs (enumerate rs);;
      rs ← iterable results;
      summary_data ← build_summary agent_configs (enumerate rs) [];
      show_dataframe summary_data;;
      timestamp ← now_strftime;
      let combined_text := report_part1 timestamp human_input in
      let combined_text :=
        report_configs (enumerate agent_configs) combined_text in
      timestamp ← now_strftime;
      let combined_text := combined_text +:+ report_part2 timestamp in
      rs ← iterable results;
      combined_text ← report_results agent_configs (enumerate rs) combined_text;
      session_state_set_download_content combined_text
  end.

Definition check_key_message : string :=
  "Please check your GROQ API key and try again.".

(** [f"An error occurred while creating the crew: {str(e)}"]. *)
Definition crew_error (e : Exn) : string :=
  "An error occurred while creating the crew: " +:+ str e.

Definition handle_crew_creation (agent_configs : list AgentConfig)
    (human_input : string) (groq_api_key : option string) : M unit :=
  if negb (truthy groq_api_key) then
    st_error missing_key_message
  else
    try_except
      (crew_creation_try agent_configs human_input groq_api_key)
      (λ e,
       st_error (crew_error e);;
       st_error check_key_message).

(** ** Vocabulary of the statements *)

(** [w] after the outside world moved to [x] and the events [evs] happened. *)
Definition extend (w : World) (x : Ext) (evs : list Event) : World :=
  {| ext := x; environ := environ w;
     download_content := download_content w;
     trace := trace w ++ evs |}.

(** The remote calls among some events: agent and prompt of each. *)
Definition calls (evs : list Event) : list (Agent * string) :=
  omap (λ ev, match ev with
              | EvRun agent prompt _ => Some (agent, prompt)
              | _ => None
              end) evs.

(** The messages shown with [st.error] among some events. *)
Definition errors (evs : list Event) : list string :=
  omap (λ ev, match ev with
              | EvError msg => Some msg
              | _ => None
              end) evs.

(** The successful round trip for [config] that returned [result]. *)
Definition run_event (human_input : string) (m : Model)
    (config : AgentConfig) (result : RunResult) : Event :=
  EvRun (agent_of m config) (prompt_of config human_input) (inr result).

(** The remote call made for [config]: the agent and its prompt. *)
Definition call_of (human_input : string) (m : Model) (config : AgentConfig)
    : Agent * string :=
  (agent_of m config, prompt_of config human_input).

(** A deterministic service: the answer depends on the call alone, not on the
    state the outside world is in. *)
Definition deterministic_service : Prop :=
  ∀ agent prompt x x',
    (Runner_run agent prompt x).2 = (Runner_run agent prompt x').2.

(** The service answered the calls for [cfgs], one after the other from the
    state [x], with [results], and was left in the state [x']. *)
Fixpoint served (human_input : string) (m : Model) (x : Ext)
    (cfgs : list AgentConfig) (results : list RunResult) (x' : Ext) : Prop :=
  match cfgs, results with
  | [], [] => x' = x
  | c :: cfgs, r :: results =>
      ∃ x1,
        Agent_init (name c) (instructions c) m = None ∧
        Runner_run (agent_of m c) (prompt_of c human_input) x = (x1, inr r) ∧
        served human_input m x1 cfgs results x'
  | _, _ => False
  end.

(** The constructor and the service accept whatever they are given. *)
Definition accepting : Prop :=
  (∀ n i m, Agent_init n i m = None) ∧
  (∀ agent prompt x, ∃ x' r, Runner_run agent prompt x = (x', inr r)).

(** Events of the results display only. *)
Definition is_display (ev : Event) : Prop :=
  match ev with
  | EvExpander _ _ _ | EvDataframe _ => True
  | _ => False
  end.

(** The three ways a pass can go. *)
Inductive pass_outcome (human_input : string) (m : Model) (c : AgentConfig)
    (w : World)
    : World → Exn + RunResult → Prop :=
| pass_rejected e :
    Agent_init (name c) (instructions c) m = Some e →
    pass_outcome human_input m c w w (inl e)
| pass_raised x e :
    Agent_init (name c) (instructions c) m = None →
    Runner_run (agent_of m c) (prompt_of c human_input) (ext w) = (x, inl e) →
    pass_outcome human_input m c w
      (extend w x [EvRun (agent_of m c) (prompt_of c human_input) (inl e)]) (inl e)
| pass_returned x r :
    Agent_init (name c) (instructions c) m = None →
    Runner_run (agent_of m c) (prompt_of c human_input) (ext w) = (x, inr r) →
    pass_outcome human_input m c w
      (extend w x [run_event human_input m c r]) (inr r).


(** ** One rerun of the script (lines 154-219) *)

Definition script (fe : Frontend) : M unit :=
  let groq_api_key := st_text_input fe "Enter your GROQ API key" in
  let human_input := st_text_area fe "User Input" in
  let agent_configs := collect_agent_configs fe in
  if clicked fe then
    handle_crew_creation agent_configs human_input (Some groq_api_key)
  else mret tt.

(** ** What the results display shows *)

(** The expander of the "Detailed Output" tab for the [i]-th pair. *)
Definition detail_event (i : nat) (cr : AgentConfig * RunResult) : Event :=
  EvExpander (agent_label i (name cr.1)) (instructions cr.1) (final_output cr.2).

(** The row of the "Summary" table for the [i]-th pair. *)
Definition summary_row (i : nat) (cr : AgentConfig * RunResult) : SummaryRow :=
  {| row_agent := pretty (i + 1) +:+ ": " +:+ name cr.1;
     row_instructions := instructions cr.1;
     row_output := final_output cr.2 |}.

(** The world in which the dispatcher starts: the key is in the environment
    and the client constructor has been called. *)
Definition client_world (w : World) (key : string) : World :=
  {| ext := ext w;
     environ := <["OPENAI_API_KEY" := key]> (environ w);
     download_content := download_content w;
     trace := trace w ++ [EvClient groq_base_url] |}.

(** ** The download tab (lines 222-252) *)

(** The arguments of [st.download_button]. *)
Record DownloadButton : Type :=
  { button_label : string;
    button_data : string;
    button_file_name : string;
    button_mime : string }.

Section DownloadTab.

(** [datetime.now().strftime('%Y%m%d_%H%M%S')]: the clock read in the format
    of the file name. *)
Variable strftime_compact : Ext → Ext * string.

(** The tab offers a button only when a report is stored; the file name is
    stamped when the tab is drawn. *)
Definition download_tab : M (option DownloadButton) := λ w,
  match download_content w with
  | None => (w, inr None)
  | Some content =>
      let '(x, ts) := strftime_compact (ext w) in
      ({| ext := x; environ := environ w;
          download_content := download_content w;
          trace := trace w |},
       inr (Some {| button_label := "📥 Download Complete Report";
                    button_data := content;
                    button_file_name := "crew_report_" +:+ ts +:+ ".txt";
                    button_mime := "text/plain" |}))
  end.

(** One rerun of the whole script: the widgets and the button of tab 2, then
    tab 3. *)
Definition rerun (fe : Frontend) : M (option DownloadButton) :=
  script fe;; download_tab.

End DownloadTab.

End Program.

(** ** The report layout, line by line *)

Definition equals_rule : string :=
  "==================================================".

Definition dashes_rule : string :=
  "--------------------------------------------------".

(** Every line of the list, each terminated by a line feed. *)
Definition unlines (ls : list string) : string :=
  foldr (λ l acc, l +:+ nl +:+ acc) "" ls.

Definition header_lines (timestamp human_input : string) : list string :=
  [ "AUTONOMOUS CREW BUILDER - COMPLETE REPORT";
    equals_rule;
    "";
    "PART 1: CREW CONFIGURATION";
    equals_rule;
    "Timestamp: " +:+ timestamp;
    "";
    "Additional Context:";
    human_input;
    "";
    "Agent Configurations:" ].

Definition config_entry_lines (i : nat) (c : AgentConfig) : list string :=
  [ "";
    "Agent " +:+ pretty (i + 1) +:+ ": " +:+ name c;
    "Instructions:";
    instructions c;
    dashes_rule ].

Definition results_heading_lines (timestamp : string) : list string :=
  [ "";
    equals_rule;
    "PART 2: CREW RESULTS";
    equals_rule;
    "Timestamp: " +:+ timestamp;
    "";
    "Results by Agent:" ].

Definition result_entry_lines (i : nat) (cr : AgentConfig * RunResult) : list string :=
  [ "";
    "Agent " +:+ pretty (i + 1) +:+ ": " +:+ name cr.1;
    "Output:";
    final_output cr.2;
    dashes_rule ].

Definition report_lines (agent_configs : list AgentConfig) (human_input : string)
    (results : list RunResult) (timestamp1 timestamp2 : string) : list string :=
  header_lines timestamp1 human_input
  ++ concat (imap config_entry_lines agent_configs)
  ++ results_heading_lines timestamp2
  ++ concat (imap result_entry_lines (zip agent_configs results)).

(** ** The paths through [handle_crew_creation] *)

Section Paths.

Context {X : Externals}.

(** The ways an invocation can go, each with the world it ends in and the
    events it adds: the key is missing; the key holds a NUL byte and the
    assignment to the environment raises; the client constructor raises; the
    dispatcher gives up; every entry is served but the table raises; the
    report is stored. *)
Inductive handle_path (cfgs : list AgentConfig) (human_input : string)
    (key : option string) (w : World) : World → list Event → Prop :=
| path_missing_key :
    truthy key = false →
    handle_path cfgs human_input key w
      (extend w (ext w) [EvError missing_key_message])
      [EvError missing_key_message]
| path_key_rejected k :
    key = Some k → truthy key = true → has_nul k = true →
    handle_path cfgs human_input key w
      (extend w (ext w) [EvError (crew_error nul_error); EvError check_key_message])
      [EvError (crew_error nul_error); EvError check_key_message]
| path_client_failed k e :
    key = Some k → truthy key = true → has_nul k = false →
    AsyncOpenAI_init (<["OPENAI_API_KEY" := k]> (environ w)) groq_base_url = inl e →
    handle_path cfgs human_input key w
      (extend (client_world w k) (ext w)
         [EvError (crew_error e); EvError check_key_message])
      [EvClient groq_base_url; EvError (crew_error e); EvError check_key_message]
| path_dispatch_failed k client x evs e j :
    key = Some k → truthy key = true → has_nul k = false →
    AsyncOpenAI_init (<["OPENAI_API_KEY" := k]> (environ w)) groq_base_url
      = inr client →
    j ≤ length cfgs →
    calls evs = call_of human_input (groq_model client) <$> take j cfgs →
    errors evs = [creating_error e] →
    handle_path cfgs human_input key w
      (extend (client_world w k) x evs)
      (EvClient groq_base_url :: evs)
| path_table_failed k client x rs e :
    key = Some k → truthy key = true → has_nul k = false →
    AsyncOpenAI_init (<["OPENAI_API_KEY" := k]> (environ w)) groq_base_url
      = inr client →
    length rs = length cfgs →
    served human_input (groq_model client) (ext w) cfgs rs x →
    st_dataframe (imap summary_row (zip cfgs rs)) = Some e →
    handle_path cfgs human_input key w
      (extend (client_world w k) x
         (zip_with (run_event human_input (groq_model client)) cfgs rs
            ++ imap detail_event (zip cfgs rs)
            ++ [EvError (crew_error e); EvError check_key_message]))
      (EvClient groq_base_url
         :: zip_with (run_event human_input (groq_model client)) cfgs rs
         ++ imap detail_event (zip cfgs rs)
         ++ [EvError (crew_error e); EvError check_key_message])
| path_stored k client x rs x1 ts1 x2 ts2 :
    key = Some k → truthy key = true → has_nul k = false →
    AsyncOpenAI_init (<["OPENAI_API_KEY" := k]> (environ w)) groq_base_url
      = inr client →
    length rs = length cfgs →
    served human_input (groq_model client) (ext w) cfgs rs x →
    st_dataframe (imap summary_row (zip cfgs rs)) = None →
    datetime_now x = (x1, ts1) →
    datetime_now x1 = (x2, ts2) →
    handle_path cfgs human_input key w
      {| ext := x2;
         environ := <["OPENAI_API_KEY" := k]> (environ w);
         download_content :=
           Some (unlines (report_lines cfgs human_input rs ts1 ts2));
         trace := trace w ++ EvClient groq_base_url
                    :: zip_with (run_event human_input (groq_model client)) cfgs rs
                    ++ imap detail_event (zip cfgs rs)
                    ++ [EvDataframe (imap summary_row (zip cfgs rs))] |}
      (EvClient groq_base_url
         :: zip_with (run_event human_input (groq_model client)) cfgs rs
         ++ imap detail_event (zip cfgs rs)
         ++ [EvDataframe (imap summary_row (zip cfgs rs))]).

End Paths.

(** ** Stub services *)

(** A remote service that answers every prompt with the prompt itself; its
    state counts the calls served. *)
Definition echo_stub : Externals :=
  {| Ext := nat;
     Client := string;
     AsyncOpenAI_init := λ _ base_url, inr base_url;
     Agent_init := λ _ _ _, None;
     Runner_run := λ _ prompt served, (S served, inr {| final_output := prompt |});
     datetime_now := λ served, (served, "2025-01-01 00:00:00");
     st_dataframe := λ _, None |}.

(** The echo service, except that the call made after [k] served calls fails. *)
Definition flaky_stub (k : nat) : Externals :=
  {| Ext := nat;
     Client := string;
     AsyncOpenAI_init := λ _ base_url, inr base_url;
     Agent_init := λ _ _ _, None;
     Runner_run := λ _ prompt served,
       (S served,
        if decide (served = k) then inl (Exception "503 Service Unavailable")
        else inr {| final_output := prompt |});
     datetime_now := λ served, (served, "2025-01-01 00:00:00");
     st_dataframe := λ _, None |}.

Definition world0 (X : Externals) (x : @Ext X) : @World X :=
  {| ext := x; environ := ∅; download_content := None; trace := [] |}.

Definition stub_model : Model string :=
  {| model := "llama-3.1-8b-instant";
     openai_client := "https://api.groq.com/openai/v1" |}.

Definition researcher : AgentConfig :=
  {| name := "Researcher"; instructions := "Summarize X" |}.

Definition writer : AgentConfig :=
  {| name := "Writer"; instructions := "Draft the memo" |}.

(** A world in which an earlier run has stored its report. *)
Definition world_with_report (X : Externals) (x : @Ext X) : @World X :=
  {| ext := x; environ := ∅;
     download_content := Some "AUTONOMOUS CREW BUILDER - COMPLETE REPORT";
     trace := [] |}.

(** A front end where nothing was typed, the number widget was set to [n]
    and clamps to its bounds, and the button was pressed. *)
Definition blank_frontend (n : Z) : Frontend :=
  {| number_input := λ lo hi _, Z.max lo (Z.min hi n);
     typed := ∅;
     clicked := true |}.

(** The entry collected where nothing was typed. *)
Definition blank_config : AgentConfig := {| name := ""; instructions := "" |}.

(** The user types [text] into the widget with the key [key]. *)
Definition type_into (fe : Frontend) (key text : string) : Frontend :=
  {| number_input := number_input fe;
     typed := <[key := text]> (typed fe);
     clicked := clicked fe |}.




(** A clock for the file name. *)
Definition stub_compact (served : nat) : nat * string := (served, "20250101_000000").

(** * Properties *)

Section Facts.

Context {X : Externals}.

Abbreviation Agent' := (Agent Client).
Abbreviation Model' := (Model Client).

Implicit Types (w : World) (evs : list Event) (m : Model').
Implicit Types (agent_configs cfgs : list AgentConfig) (human_input : string).

(** ** The monad *)

Lemma bind_eq {A B : Type} (c : M A) (k : A → M B) w :
  (c ≫= k) w =
  match c w with
  | (w', inl e) => (w', inl e)
  | (w', inr a) => k a w'
  end.
Proof. reflexivity. Qed.

Lemma extend_nil w : extend w (ext w) [] = w.
Proof. destruct w; unfold extend; simpl. by rewrite app_nil_r. Qed.

Lemma extend_extend w x evs x' evs' :
  extend (extend w x evs) x' evs' = extend w x' (evs ++ evs').
Proof. unfold extend; simpl. by rewrite app_assoc. Qed.

Lemma emit_eq ev w : emit ev w = (extend w (ext w) [ev], inr tt).
Proof. reflexivity. Qed.

(** ** One pass of the dispatch loop *)

Lemma crew_try_rejected human_input m c al rs w e :
  Agent_init (name c) (instructions c) m = Some e →
  crew_try human_input m c al rs w = (w, inl e).
Proof.
  intros Hinit. unfold crew_try, new_Agent. rewrite bind_eq, Hinit. reflexivity.
Qed.

Lemma crew_try_raised human_input m c al rs w x e :
  Agent_init (name c) (instructions c) m = None →
  Runner_run (agent_of m c) (prompt_of c human_input) (ext w) = (x, inl e) →
  crew_try human_input m c al rs w =
    (extend w x [EvRun (agent_of m c) (prompt_of c human_input) (inl e)], inl e).
Proof.
  intros Hinit Hrun. unfold crew_try, new_Agent. rewrite bind_eq, Hinit. simpl.
  rewrite bind_eq. unfold await_Runner_run. fold (agent_of m c). rewrite Hrun.
  reflexivity.
Qed.

Lemma crew_try_returned human_input m c al rs w x r :
  Agent_init (name c) (instructions c) m = None →
  Runner_run (agent_of m c) (prompt_of c human_input) (ext w) = (x, inr r) →
  crew_try human_input m c al rs w =
    (extend w x [run_event human_input m c r],
     inr (Next (al ++ [agent_of m c], rs ++ [r]))).
Proof.
  intros Hinit Hrun. unfold crew_try, new_Agent. rewrite bind_eq, Hinit. simpl.
  rewrite bind_eq. unfold await_Runner_run. fold (agent_of m c). rewrite Hrun.
  reflexivity.
Qed.

Lemma pass_outcome_total human_input m c w :
  ∃ w' out, pass_outcome human_input m c w w' out.
Proof.
  destruct (Agent_init (name c) (instructions c) m) as [e|] eqn:Hinit.
  - eexists _, _. by apply pass_rejected.
  - destruct (Runner_run (agent_of m c) (prompt_of c human_input) (ext w))
      as [x [e|r]] eqn:Hrun.
    + eexists _, _. by eapply pass_raised.
    + eexists _, _. by eapply pass_returned.
Qed.

Lemma crew_try_outcome human_input m c al rs w w' out :
  pass_outcome human_input m c w w' out →
  crew_try human_input m c al rs w =
    (w', match out with
         | inl e => inl e
         | inr r => inr (Next (al ++ [agent_of m c], rs ++ [r]))
         end).
Proof.
  destruct 1.
  - by apply crew_try_rejected.
  - by apply crew_try_raised.
  - by apply crew_try_returned.
Qed.

Lemma crew_body_outcome human_input m c al rs w w' out :
  pass_outcome human_input m c w w' out →
  crew_body human_input m c al rs w =
    match out with
    | inl e => (extend w' (ext w') [EvError (creating_error e)],
                inr (Return (None, None)))
    | inr r => (w', inr (Next (al ++ [agent_of m c], rs ++ [r])))
    end.
Proof.
  intros Hp. unfold crew_body, try_except.
  rewrite (crew_try_outcome _ _ _ _ _ _ _ _ Hp). by destruct out.
Qed.

(** ** The dispatch loop *)

Lemma crew_loop_cases human_input m cfgs : ∀ al rs w,
  (∃ x new,
      length new = length cfgs ∧
      served human_input m (ext w) cfgs new x ∧
      crew_loop human_input m cfgs al rs w =
        (extend w x (zip_with (run_event human_input m) cfgs new),
         inr (Some (al ++ (agent_of m <$> cfgs)), Some (rs ++ new))))
  ∨ (∃ x k c new failing e,
        cfgs !! k = Some c ∧ length new = k ∧
        (failing = [] ∧ Agent_init (name c) (instructions c) m = Some e
         ∨ failing = [EvRun (agent_of m c) (prompt_of c human_input) (inl e)] ∧
           ∃ xk, Runner_run (agent_of m c) (prompt_of c human_input) xk = (x, inl e)) ∧
        crew_loop human_input m cfgs al rs w =
          (extend w x
             (zip_with (run_event human_input m) (take k cfgs) new
                ++ failing ++ [EvError (creating_error e)]),
           inr (None, None))).
Proof.
  induction cfgs as [|c cfgs IH]; intros al rs w.
  - left. exists (ext w), []. split; [done|]. split; [done|]. simpl.
    rewrite extend_nil, !app_nil_r. reflexivity.
  - destruct (pass_outcome_total human_input m c w) as (w1 & out & Hp).
    cbn [crew_loop]. rewrite bind_eq, (crew_body_outcome _ _ _ al rs _ _ _ Hp).
    destruct Hp as [e Hinit|x e Hinit Hrun|x r Hinit Hrun].
    + right. exists (ext w), 0, c, [], [], e. simpl. eauto 10.
    + right. exists x, 0, c, [], [EvRun (agent_of m c) (prompt_of c human_input) (inl e)], e.
      simpl. rewrite extend_extend. eauto 10.
    + destruct (IH (al ++ [agent_of m c]) (rs ++ [r])
                  (extend w x [run_event human_input m c r]))
        as [(x' & new & Hlen & Hsrv & Heq)
           |(x' & k & c' & new & failing & e & Hk & Hlen & Hf & Heq)].
      * left. exists x', (r :: new). split; [simpl; lia|].
        split; [simpl; eauto|].
        rewrite Heq, extend_extend. simpl. by rewrite <- !app_assoc.
      * right. exists x', (S k), c', (r :: new), failing, e.
        split; [done|]. split; [simpl; lia|]. split; [done|].
        rewrite Heq, extend_extend. reflexivity.
Qed.

(** The dispatcher never raises, never touches the process environment or the
    session state, and only ever appends to the trace. *)
Lemma crew_loop_frame human_input m cfgs al rs w :
  ∃ w' v evs,
    crew_loop human_input m cfgs al rs w = (w', inr v) ∧
    w' = extend w (ext w') evs.
Proof.
  destruct (crew_loop_cases human_input m cfgs al rs w)
    as [(x & new & _ & _ & Heq)|(x & k & c & new & failing & e & _ & _ & _ & Heq)];
    rewrite Heq; eauto.
Qed.

(** Running a list whose first part succeeds continues with the rest from the
    state and the locals that the first part left. *)
Lemma crew_loop_app human_input m l1 l2 : ∀ al rs w w1 al1 rs1,
  crew_loop human_input m l1 al rs w = (w1, inr (Some al1, Some rs1)) →
  crew_loop human_input m (l1 ++ l2) al rs w = crew_loop human_input m l2 al1 rs1 w1.
Proof.
  induction l1 as [|c l1 IH]; intros al rs w w1 al1 rs1 Hrun.
  - simpl in Hrun. by inversion Hrun.
  - destruct (pass_outcome_total human_input m c w) as (w' & out & Hp).
    cbn [crew_loop app] in *.
    rewrite bind_eq, (crew_body_outcome _ _ _ al rs _ _ _ Hp) in *.
    destruct out as [e|r]; [inversion Hrun|]. by apply IH.
Qed.

Lemma calls_app evs evs' : calls (evs ++ evs') = calls evs ++ calls evs'.
Proof. apply omap_app. Qed.

Lemma errors_app evs evs' : errors (evs ++ evs') = errors evs ++ errors evs'.
Proof. apply omap_app. Qed.

Lemma calls_run_events human_input m cfgs : ∀ new,
  length new = length cfgs →
  calls (zip_with (run_event human_input m) cfgs new) = call_of human_input m <$> cfgs.
Proof.
  induction cfgs as [|c cfgs IH]; intros [|r new] Hlen; simpl in *; try done.
  f_equal. apply IH. lia.
Qed.

Lemma errors_run_events human_input m cfgs new :
  errors (zip_with (run_event human_input m) cfgs new) = [].
Proof. revert new. induction cfgs as [|c cfgs IH]; intros [|r new]; simpl; auto. Qed.

(** What every run of the loop amounts to: the calls made are those of an
    initial segment of the configurations, in order, and either the whole
    list was served or one error message was shown and nothing is returned. *)
Lemma crew_loop_summary human_input m cfgs al rs w :
  ∃ x evs v,
    crew_loop human_input m cfgs al rs w = (extend w x evs, inr v) ∧
    (∃ k, k ≤ length cfgs ∧ calls evs = call_of human_input m <$> take k cfgs) ∧
    ((v = (None, None) ∧ ∃ e, errors evs = [creating_error e])
     ∨ (∃ new, length new = length cfgs ∧
               served human_input m (ext w) cfgs new x ∧
               v = (Some (al ++ (agent_of m <$> cfgs)), Some (rs ++ new)) ∧
               evs = zip_with (run_event human_input m) cfgs new)).
Proof.
  destruct (crew_loop_cases human_input m cfgs al rs w)
    as [(x & new & Hlen & Hsrv & Heq)
       |(x & k & c & new & failing & e & Hk & Hlen & Hf & Heq)].
  - eexists _, _, _. split; [exact Heq|]. split.
    + exists (length cfgs). split; [done|].
      by rewrite firstn_all, calls_run_events.
    + right. eauto 10.
  - eexists _, _, _. split; [exact Heq|].
    pose proof (lookup_lt_Some _ _ _ Hk) as Hlt.
    assert (length new = length (take k cfgs)) as Hlen'
      by (rewrite length_take; lia).
    split.
    + rewrite !calls_app, (calls_run_events _ _ _ _ Hlen'). simpl.
      destruct Hf as [[-> _]|[-> _]]; simpl.
      * exists k. split; [lia|]. by rewrite app_nil_r.
      * exists (S k). split; [lia|].
        by rewrite (take_S_r _ _ _ Hk), fmap_app.
    + left. split; [done|]. exists e.
      rewrite !errors_app, errors_run_events.
      by destruct Hf as [[-> _]|[-> _]].
Qed.

(** The answers of a deterministic service do not depend on the state in
    which the loop starts. *)
Lemma crew_loop_deterministic human_input m cfgs :
  deterministic_service →
  ∀ al rs w w',
    (crew_loop human_input m cfgs al rs w).2 = (crew_loop human_input m cfgs al rs w').2.
Proof.
  intros Hdet. induction cfgs as [|c cfgs IH]; intros al rs w w'; [done|].
  destruct (pass_outcome_total human_input m c w) as (w1 & out & Hp).
  destruct (pass_outcome_total human_input m c w') as (w1' & out' & Hp').
  cbn [crew_loop]. rewrite !bind_eq.
  rewrite (crew_body_outcome _ _ _ al rs _ _ _ Hp).
  rewrite (crew_body_outcome _ _ _ al rs _ _ _ Hp').
  assert (out = out') as <-.
  { pose proof (Hdet (agent_of m c) (prompt_of c human_input) (ext w) (ext w')) as Hd.
    destruct Hp, Hp'; try congruence;
      repeat match goal with
             | H : Runner_run _ _ _ = _ |- _ => rewrite H in Hd; clear H
             end; simpl in Hd; congruence. }
  destruct out as [e|r]; [done|]. apply IH.
Qed.

(** ** Strings and report text *)

Lemma append_assoc (s1 s2 s3 : string) : (s1 +:+ s2) +:+ s3 = s1 +:+ (s2 +:+ s3).
Proof. induction s1 as [|a s1 IH]; simpl; [done|]. by rewrite IH. Qed.

Lemma append_empty_r (s : string) : s +:+ "" = s.
Proof. induction s as [|a s IH]; simpl; [done|]. by rewrite IH. Qed.

Lemma unlines_app (l1 l2 : list string) :
  unlines (l1 ++ l2) = unlines l1 +:+ unlines l2.
Proof.
  induction l1 as [|l l1 IH]; simpl; [done|].
  by rewrite IH, !append_assoc.
Qed.

Lemma str_mul_equals : str_mul "=" 50 = equals_rule.
Proof. reflexivity. Qed.

Lemma str_mul_dashes : str_mul "-" 50 = dashes_rule.
Proof. reflexivity. Qed.

Lemma unlines_cons (l : string) (ls : list string) :
  unlines (l :: ls) = l +:+ nl +:+ unlines ls.
Proof. reflexivity. Qed.

Lemma append_empty_l (s : string) : "" +:+ s = s.
Proof. reflexivity. Qed.

(** Normalise a text built with appends: unfold [unlines] on explicit lists
    and associate to the right. *)
Ltac text_normalise :=
  rewrite ?unlines_app;
  repeat (rewrite unlines_cons);
  cbn [unlines foldr];
  rewrite ?append_assoc, ?append_empty_r, ?append_empty_l.

Lemma report_part1_lines timestamp human_input :
  report_part1 timestamp human_input = unlines (header_lines timestamp human_input).
Proof.
  unfold report_part1, header_lines. rewrite str_mul_equals.
  text_normalise. reflexivity.
Qed.

Lemma report_part2_lines timestamp :
  report_part2 timestamp = unlines (results_heading_lines timestamp).
Proof.
  unfold report_part2, results_heading_lines. rewrite str_mul_equals.
  text_normalise. reflexivity.
Qed.

Lemma report_configs_lines cfgs : ∀ i text,
  report_configs (enumerate_from i cfgs) text =
    text +:+ unlines (concat (imap (λ j, config_entry_lines (i + j)) cfgs)).
Proof.
  induction cfgs as [|c cfgs IH]; intros i text.
  - cbn. by rewrite append_empty_r.
  - cbn [enumerate_from report_configs]. rewrite IH, imap_cons.
    rewrite (imap_ext ((λ j, config_entry_lines (i + j)) ∘ S)
               (λ j, config_entry_lines (S i + j)) cfgs)
      by (intros j ? _; cbn; by rewrite Nat.add_succ_r).
    cbn [concat]. unfold config_entry_lines at 2, agent_label.
    rewrite str_mul_dashes, Nat.add_0_r. text_normalise. reflexivity.
Qed.

(** ** After a successful dispatch *)

Lemma getitem_middle {A : Type} (pre : list A) (c : A) (cs : list A) w :
  getitem (pre ++ c :: cs) (length pre) w = (w, inr c).
Proof. unfold getitem. by rewrite list_lookup_middle. Qed.

Lemma snoc_middle {A : Type} (pre : list A) (c : A) (cs : list A) :
  pre ++ c :: cs = (pre ++ [c]) ++ cs.
Proof. by rewrite <- app_assoc. Qed.

Lemma length_snoc {A : Type} (pre : list A) (c : A) :
  S (length pre) = length (pre ++ [c]).
Proof. rewrite length_app. simpl. lia. Qed.

(** With one result per configuration no index is out of range: the detailed
    tab only displays. *)
Lemma show_detailed_ok (rs : list RunResult) : ∀ pre cs,
  length rs ≤ length cs →
  ∃ evs, Forall is_display evs ∧
    ∀ w, show_detailed (pre ++ cs) (enumerate_from (length pre) rs) w =
           (extend w (ext w) evs, inr tt).
Proof.
  induction rs as [|r rs IH]; intros pre cs Hlen.
  - exists []. split; [constructor|]. intros w. cbn. by rewrite extend_nil.
  - destruct cs as [|c cs]; [simpl in Hlen; lia|].
    destruct (IH (pre ++ [c]) cs) as (evs & Hdisp & Heq); [simpl in Hlen; lia|].
    exists (EvExpander (agent_label (length pre) (name c)) (instructions c)
              (final_output r) :: evs).
    split; [constructor; [exact I|exact Hdisp]|].
    intros w. cbn [enumerate_from show_detailed].
    rewrite bind_eq, getitem_middle, bind_eq, getitem_middle, bind_eq, emit_eq.
    rewrite (snoc_middle pre c cs), (length_snoc pre c), Heq, extend_extend. reflexivity.
Qed.

Lemma build_summary_ok (rs : list RunResult) : ∀ pre cs summary_data,
  length rs ≤ length cs →
  ∃ rows,
    ∀ w, build_summary (pre ++ cs) (enumerate_from (length pre) rs) summary_data w =
           (w, inr rows).
Proof.
  induction rs as [|r rs IH]; intros pre cs summary_data Hlen.
  - by exists summary_data.
  - destruct cs as [|c cs]; [simpl in Hlen; lia|].
    edestruct (IH (pre ++ [c]) cs) as (rows & Heq); [simpl in Hlen; lia|].
    exists rows. intros w. cbn [enumerate_from build_summary].
    rewrite bind_eq, getitem_middle, bind_eq, getitem_middle.
    rewrite (snoc_middle pre c cs), (length_snoc pre c). apply Heq.
Qed.

Lemma report_results_lines (rs : list RunResult) : ∀ pre cs text w,
  length rs ≤ length cs →
  report_results (pre ++ cs) (enumerate_from (length pre) rs) text w =
    (w, inr (text +:+ unlines (concat
               (imap (λ j, result_entry_lines (length pre + j)) (zip cs rs))))).
Proof.
  induction rs as [|r rs IH]; intros pre cs text w Hlen.
  - destruct cs; cbn; by rewrite append_empty_r.
  - destruct cs as [|c cs]; [simpl in Hlen; lia|].
    cbn [enumerate_from report_results zip zip_with].
    rewrite bind_eq, getitem_middle.
    rewrite (snoc_middle pre c cs), (length_snoc pre c), IH by (simpl in Hlen; lia).
    rewrite imap_cons.
    rewrite (imap_ext ((λ j, result_entry_lines (length pre + j)) ∘ S)
               (λ j, result_entry_lines (length (pre ++ [c]) + j)) (zip cs rs))
      by (intros j ? _; cbn; rewrite <- length_snoc; by rewrite Nat.add_succ_r).
    cbn [concat]. unfold result_entry_lines at 2, agent_label.
    rewrite str_mul_dashes, Nat.add_0_r. text_normalise. reflexivity.
Qed.

Lemma ret_eq {A : Type} (a : A) w : (mret a : M A) w = (w, inr a).
Proof. reflexivity. Qed.

Lemma display_silent evs :
  Forall is_display evs → calls evs = [] ∧ errors evs = [].
Proof.
  induction 1 as [|ev evs Hev _ [IHc IHe]]; [done|].
  destruct ev; try done.
Qed.

Lemma calls_client url evs : calls (EvClient url :: evs) = calls evs.
Proof. reflexivity. Qed.

Lemma errors_client url evs : errors (EvClient url :: evs) = errors evs.
Proof. reflexivity. Qed.

Lemma report_text_lines cfgs human_input rs ts1 ts2 :
  (report_configs (enumerate_from 0 cfgs) (report_part1 ts1 human_input)
     +:+ report_part2 ts2)
    +:+ unlines (concat (imap (λ j, result_entry_lines (0 + j)) (zip cfgs rs)))
  = unlines (report_lines cfgs human_input rs ts1 ts2).
Proof.
  unfold report_lines.
  rewrite report_configs_lines, report_part1_lines, report_part2_lines.
  rewrite !unlines_app, !append_assoc. reflexivity.
Qed.

Lemma environ_set_key v w :
  environ_set "OPENAI_API_KEY" v w =
    if has_nul v then (w, inl nul_error)
    else ({| ext := ext w; environ := <["OPENAI_API_KEY" := v]> (environ w);
             download_content := download_content w;
             trace := trace w |}, inr tt).
Proof. unfold environ_set. by destruct (has_nul v). Qed.

(** A key with a NUL byte: the assignment raises inside the [try], before
    the client is built. *)
Lemma handle_nul_key cfgs human_input key w :
  truthy (Some key) = true →
  has_nul key = true →
  handle_crew_creation cfgs human_input (Some key) w =
    (extend w (ext w) [EvError (crew_error nul_error); EvError check_key_message],
     inr tt).
Proof.
  intros Hkey Hnul. unfold handle_crew_creation. rewrite Hkey. cbn [negb].
  unfold try_except, crew_creation_try.
  rewrite bind_eq. cbn [as_str]. rewrite ret_eq, bind_eq.
  rewrite environ_set_key, Hnul, bind_eq. unfold st_error.
  by rewrite !emit_eq, extend_extend.
Qed.

Lemma crew_creation_cases cfgs human_input key w :
  truthy (Some key) = true →
  has_nul key = false →
  ∃ x evs dc,
    handle_crew_creation cfgs human_input (Some key) w =
      ({| ext := x;
          environ := <["OPENAI_API_KEY" := key]> (environ w);
          download_content := dc;
          trace := trace w ++ evs |}, inr tt) ∧
    (∃ k, k ≤ length cfgs ∧
          (calls evs).*2 = (λ c, prompt_of c human_input) <$> take k cfgs) ∧
    ((dc = download_content w ∧ errors evs ≠ [])
     ∨ (∃ rs ts1 ts2 m disp,
          length rs = length cfgs ∧
          dc = Some (unlines (report_lines cfgs human_input rs ts1 ts2)) ∧
          evs = EvClient groq_base_url
                  :: zip_with (run_event human_input m) cfgs rs ++ disp ∧
          Forall is_display disp)).
Proof.
  intros Hkey Hnul. unfold handle_crew_creation. rewrite Hkey. cbn [negb].
  unfold try_except, crew_creation_try.
  rewrite bind_eq. cbn [as_str]. rewrite ret_eq, bind_eq.
  rewrite environ_set_key, Hnul, bind_eq. unfold AsyncOpenAI at 1.
  cbn [environ ext download_content trace].
  set (w1 := {| ext := ext w;
                environ := <["OPENAI_API_KEY":=key]> (environ w);
                download_content := download_content w;
                trace := trace w ++ [EvClient groq_base_url] |}).
  destruct (AsyncOpenAI_init _ _) as [e|client].
  - rewrite bind_eq. unfold st_error. rewrite !emit_eq.
    exists (ext w),
      [EvClient groq_base_url; EvError (crew_error e); EvError check_key_message],
      (download_content w).
    split; [unfold extend, w1; cbn; by rewrite <- !app_assoc|].
    split; [exists 0; split; [lia|done]|]. by left.
  - rewrite bind_eq. unfold create_and_run_crew.
    destruct (crew_loop_summary human_input (groq_model client) cfgs [] [] w1)
      as (x & evs & v & Heq & (k & Hk & Hcalls) & Hv).
    rewrite Heq.
    assert ((calls evs).*2 = (λ c, prompt_of c human_input) <$> take k cfgs)
      as Hprompts by (by rewrite Hcalls, <- list_fmap_compose).
    destruct Hv as [[-> (e & Herr)]|(new & Hlen & Hsrv & -> & ->)].
    + exists x, (EvClient groq_base_url :: evs), (download_content w).
      split; [unfold extend, w1; cbn; by rewrite <- !app_assoc|].
      split; [by exists k|].
      left. split; [done|]. by rewrite errors_client, Herr.
    + cbn [app iterable]. rewrite bind_eq, ret_eq, bind_eq.
      destruct (show_detailed_ok new [] cfgs) as (disp & Hdisp & Hshow); [lia|].
      destruct (build_summary_ok new [] cfgs []) as (rows & Hrows); [lia|].
      destruct (display_silent _ Hdisp) as [Hdc Hde].
      cbn [app length] in Hshow, Hrows. unfold enumerate.
      rewrite Hshow, bind_eq, ret_eq, bind_eq, Hrows, bind_eq.
      rewrite extend_extend.
      unfold show_dataframe. destruct (st_dataframe rows) as [e|].
      * unfold raise. rewrite bind_eq. unfold st_error. rewrite !emit_eq.
        rewrite !extend_extend.
        eexists _, (EvClient groq_base_url :: _), (download_content w).
        split; [unfold extend, w1; cbn; by rewrite <- !app_assoc|].
        split.
        { exists k. split; [done|].
          rewrite calls_client, !calls_app, Hdc. cbn.
          by rewrite !app_nil_r. }
        left. split; [done|].
        rewrite errors_client, !errors_app, errors_run_events, Hde. done.
      * rewrite emit_eq, extend_extend, bind_eq.
        unfold now_strftime at 1. cbn [ext extend].
        destruct (datetime_now x) as [x1 ts1].
        rewrite bind_eq. unfold now_strftime at 1. cbn [ext].
        destruct (datetime_now x1) as [x2 ts2].
        rewrite bind_eq, ret_eq, bind_eq.
        rewrite (report_results_lines new [] cfgs) by lia.
        cbn [app length]. rewrite report_text_lines.
        unfold session_state_set_download_content.
        cbn [ext environ download_content trace].
        eexists x2, (EvClient groq_base_url :: _), _.
        split; [unfold w1; cbn; by rewrite <- !app_assoc|].
        split.
        { exists k. split; [done|].
          rewrite calls_client, !calls_app, Hdc. cbn.
          by rewrite !app_nil_r. }
        right. exists new, ts1, ts2, (groq_model client), (disp ++ [EvDataframe rows]).
        split; [done|]. split; [done|]. split; [done|].
        apply Forall_app. split; [done|]. by constructor.
Qed.

(** Every invocation, whatever the credential. *)
Lemma handle_crew_creation_outcome cfgs human_input key w :
  ∃ x evs dc,
    handle_crew_creation cfgs human_input key w =
      ({| ext := x;
          environ := if truthy key && negb (has_nul (default "" key))
                     then <["OPENAI_API_KEY" := default "" key]> (environ w)
                     else environ w;
          download_content := dc;
          trace := trace w ++ evs |}, inr tt) ∧
    (∃ k, k ≤ length cfgs ∧
          (calls evs).*2 = (λ c, prompt_of c human_input) <$> take k cfgs) ∧
    ((dc = download_content w ∧ errors evs ≠ [])
     ∨ (∃ rs ts1 ts2 m disp,
          length rs = length cfgs ∧
          dc = Some (unlines (report_lines cfgs human_input rs ts1 ts2)) ∧
          evs = EvClient groq_base_url
                  :: zip_with (run_event human_input m) cfgs rs ++ disp ∧
          Forall is_display disp)).
Proof.
  destruct (truthy key) eqn:Hkey.
  - destruct key as [k|]; [|done]. change (default "" (Some k)) with k.
    destruct (has_nul k) eqn:Hnul; cbn [andb negb].
    + exists (ext w), [EvError (crew_error nul_error); EvError check_key_message],
        (download_content w).
      rewrite handle_nul_key by done.
      split; [reflexivity|]. split; [exists 0; split; [lia|done]|]. by left.
    + destruct (crew_creation_cases cfgs human_input k w Hkey Hnul)
        as (x & evs & dc & Heq & Hcalls & Hcases).
      exists x, evs, dc. by rewrite Heq.
  - exists (ext w), [EvError missing_key_message], (download_content w).
    unfold handle_crew_creation. rewrite Hkey. cbn [negb].
    split; [done|]. split; [exists 0; split; [lia|done]|]. by left.
Qed.

(** ** The dispatcher *)

(** C1. For every N with 1 <= N <= 10, a successful run of
    [create_and_run_crew] over N configurations returns a list of exactly N
    results in input order: the result at index i is what the service
    answered to the call made for the configuration at index i, and the
    calls were made one after the other in that order. *)
Theorem create_and_run_crew_results_aligned cfgs human_input m w w' tasklist res :
  1 ≤ length cfgs ≤ 10 →
  create_and_run_crew cfgs human_input m w = (w', inr (Some tasklist, res)) →
  ∃ results,
    res = Some results ∧
    length results = length cfgs ∧
    tasklist = agent_of m <$> cfgs ∧
    served human_input m (ext w) cfgs results (ext w') ∧
    trace w' = trace w ++ zip_with (run_event human_input m) cfgs results ∧
    ∀ i c, cfgs !! i = Some c →
      ∃ r, results !! i = Some r ∧
           drop (length (trace w)) (trace w') !! i
             = Some (run_event human_input m c r).
Proof.
  intros _ Hrun. unfold create_and_run_crew in Hrun.
  destruct (crew_loop_cases human_input m cfgs [] [] w)
    as [(x & new & Hlen & Hsrv & Heq)
       |(x & k & c & new & failing & e & _ & _ & _ & Heq)];
    rewrite Heq in Hrun; [|inversion Hrun].
  injection Hrun as <- <- <-. exists new.
  split; [done|]. split; [done|]. split; [done|]. split; [done|].
  split; [done|]. intros i c Hc.
  destruct (lookup_lt_is_Some_2 new i) as [r Hr];
    [rewrite Hlen; by eapply lookup_lt_Some|].
  exists r. split; [done|]. cbn [extend trace].
  rewrite drop_app_length, lookup_zip_with, Hc. simpl. by rewrite Hr.
Qed.

(** C2. If the pass for the k-th entry raises, in the agent constructor or in
    the remote call, after the entries before it were served, the dispatcher
    returns [(None, None)]: the results collected so far are dropped, and after
    the failing call only the error message follows, whatever entries remain. *)
Theorem kth_failure_aborts_batch cfgs human_input m w k c w1 al rs e :
  cfgs !! k = Some c →
  crew_loop human_input m (take k cfgs) [] [] w = (w1, inr (Some al, Some rs)) →
  (Agent_init (name c) (instructions c) m = Some e
   ∨ Agent_init (name c) (instructions c) m = None ∧
     (Runner_run (agent_of m c) (prompt_of c human_input) (ext w1)).2 = inl e) →
  ∃ w' failing,
    create_and_run_crew cfgs human_input m w = (w', inr (None, None)) ∧
    length rs = k ∧
    trace w' = trace w1 ++ failing ++ [EvError (creating_error e)] ∧
    (failing = []
     ∨ failing = [EvRun (agent_of m c) (prompt_of c human_input) (inl e)]) ∧
    calls (trace w') = calls (trace w1) ++ calls failing.
Proof.
  intros Hk Hprefix Hraise.
  pose proof (lookup_lt_Some _ _ _ Hk) as Hlt.
  assert (length rs = k) as Hrs.
  { destruct (crew_loop_cases human_input m (take k cfgs) [] [] w)
      as [(x & new & Hlen & _ & Heq)
         |(x & k' & c' & new & failing & e' & _ & _ & _ & Heq)];
      rewrite Heq in Hprefix; [|inversion Hprefix].
    injection Hprefix as _ _ <-. rewrite Hlen, length_take. lia. }
  assert (crew_loop human_input m cfgs [] [] w
          = crew_loop human_input m (c :: drop (S k) cfgs) al rs w1) as Hsplit.
  { rewrite <- (take_drop_middle cfgs k c Hk) at 1. by apply crew_loop_app. }
  unfold create_and_run_crew. rewrite Hsplit.
  cbn [crew_loop]. rewrite bind_eq.
  destruct Hraise as [Hinit|[Hinit Hrun]].
  - rewrite (crew_body_outcome _ _ _ al rs _ _ _
               (pass_rejected human_input m c w1 e Hinit)).
    eexists _, []. split; [reflexivity|]. split; [done|].
    split; [reflexivity|]. split; [by left|]. cbn [extend trace].
    rewrite calls_app. reflexivity.
  - destruct (Runner_run (agent_of m c) (prompt_of c human_input) (ext w1))
      as [x out] eqn:Hcall. simpl in Hrun. subst out.
    rewrite (crew_body_outcome _ _ _ al rs _ _ _
               (pass_raised human_input m c w1 x e Hinit Hcall)).
    eexists _, [_]. split; [reflexivity|]. split; [done|].
    cbn [extend trace ext]. rewrite <- app_assoc.
    split; [reflexivity|]. split; [by right|].
    rewrite !calls_app. reflexivity.
Qed.

(** C6. Against a deterministic service, invoking the dispatcher a second time
    with the same configurations and context, in whatever state the first
    invocation left, returns the same value as the first. *)
Theorem create_and_run_crew_repeatable cfgs human_input m w :
  deterministic_service →
  (create_and_run_crew cfgs human_input m
     (create_and_run_crew cfgs human_input m w).1).2
  = (create_and_run_crew cfgs human_input m w).2.
Proof.
  intros Hdet. unfold create_and_run_crew.
  by apply crew_loop_deterministic.
Qed.

(** In a served chain every entry has its answer: what the service returned
    to the call made with that entry's agent and prompt. *)
Lemma served_lookup human_input m cfgs : ∀ x rs x' i c,
  served human_input m x cfgs rs x' →
  cfgs !! i = Some c →
  ∃ r xi xi',
    rs !! i = Some r ∧
    Runner_run (agent_of m c) (prompt_of c human_input) xi = (xi', inr r).
Proof.
  induction cfgs as [|c0 cfgs IH]; intros x [|r rs] x' i c Hsrv Hc; try done.
  destruct Hsrv as (x1 & _ & Hcall & Hsrv). destruct i as [|i].
  - injection Hc as <-. by exists r, x, x1.
  - by apply (IH x1 rs x' i c).
Qed.

(** ** [handle_crew_creation] *)

(** C3. With an absent or empty credential [handle_crew_creation] shows the
    message asking for the key and does nothing else: no client or model
    handle is built, the dispatch loop is not entered, no remote call is made,
    and the environment and the session state are as before. *)
Theorem missing_credential_no_dispatch cfgs human_input key w :
  key = None ∨ key = Some "" →
  handle_crew_creation cfgs human_input key w
    = (extend w (ext w) [EvError missing_key_message], inr tt) ∧
  calls (trace (handle_crew_creation cfgs human_input key w).1) = calls (trace w).
Proof.
  intros Hkey.
  assert (handle_crew_creation cfgs human_input key w
          = (extend w (ext w) [EvError missing_key_message], inr tt)) as Heq
    by (by destruct Hkey as [-> | ->]).
  split; [exact Heq|]. rewrite Heq. cbn [fst extend trace].
  rewrite calls_app. apply app_nil_r.
Qed.

(** C5. After a run that showed no error the stored report is, line by line:
    the title, a rule of 50 [=], the heading of part 1 between rules of 50
    [=] with its timestamp and the shared context, then for every agent in
    order a blank line, its numbered name, its instructions verbatim and a
    rule of 50 [-]; then the heading of part 2 between rules of 50 [=] with
    its timestamp, then for every agent in order a blank line, its numbered
    name, the output of its call verbatim and a rule of 50 [-]. *)
Theorem report_layout cfgs human_input key w w' v evs :
  handle_crew_creation cfgs human_input key w = (w', v) →
  trace w' = trace w ++ evs →
  errors evs = [] →
  ∃ rs ts1 ts2 m disp,
    length rs = length cfgs ∧
    evs = EvClient groq_base_url
            :: zip_with (run_event human_input m) cfgs rs ++ disp ∧
    Forall is_display disp ∧
    download_content w'
      = Some (unlines (header_lines ts1 human_input
                       ++ concat (imap config_entry_lines cfgs)
                       ++ results_heading_lines ts2
                       ++ concat (imap result_entry_lines (zip cfgs rs)))) ∧
    equals_rule = str_mul "=" 50 ∧
    dashes_rule = str_mul "-" 50.
Proof.
  intros Hrun Htrace Hquiet.
  destruct (handle_crew_creation_outcome cfgs human_input key w)
    as (x & evs' & dc & Heq & _ & Hcases).
  rewrite Heq in Hrun. injection Hrun as <- <-. cbn [trace] in Htrace.
  apply app_inv_head in Htrace. subst evs'.
  destruct Hcases as [[_ Herr]|(rs & ts1 & ts2 & m & disp & Hlen & -> & -> & Hdisp)];
    [done|].
  exists rs, ts1, ts2, m, disp. by repeat split.
Qed.

(** C10. An invocation that shows an error, for a missing credential, a
    failed dispatch or an exception raised anywhere in the [try] block,
    leaves [st.session_state.download_content] as it was. *)
Theorem failed_run_keeps_download_content cfgs human_input key w w' v evs :
  handle_crew_creation cfgs human_input key w = (w', v) →
  trace w' = trace w ++ evs →
  errors evs ≠ [] →
  download_content w' = download_content w.
Proof.
  intros Hrun Htrace Hfailed.
  destruct (handle_crew_creation_outcome cfgs human_input key w)
    as (x & evs' & dc & Heq & _ & Hcases).
  rewrite Heq in Hrun. injection Hrun as <- <-. cbn [trace] in Htrace.
  apply app_inv_head in Htrace. subst evs'. cbn [download_content].
  destruct Hcases as [[-> _]|(rs & ts1 & ts2 & m & disp & _ & _ & -> & Hdisp)];
    [done|].
  exfalso. apply Hfailed.
  destruct (display_silent _ Hdisp) as [_ Hde].
  by rewrite errors_client, errors_app, errors_run_events, Hde.
Qed.


(** ** The collector and the script *)

Lemma collect_loop_spec fe indices : ∀ agent_configs,
  collect_loop fe indices agent_configs = agent_configs ++ (config_at fe <$> indices).
Proof.
  induction indices as [|i indices IH]; intros agent_configs; simpl.
  - by rewrite app_nil_r.
  - rewrite IH, <- app_assoc. reflexivity.
Qed.

Lemma collect_agent_configs_spec fe :
  collect_agent_configs fe = config_at fe <$> seq 0 (Z.to_nat (number_of_agents fe)).
Proof. unfold collect_agent_configs, range. by rewrite collect_loop_spec. Qed.

Lemma collect_agent_configs_length fe :
  length (collect_agent_configs fe) = Z.to_nat (number_of_agents fe).
Proof. by rewrite collect_agent_configs_spec, length_fmap, length_seq. Qed.

(** C7. When the number widget honours the bounds it is given, the list the
    collector builds has between 1 and 10 entries, one per index below the
    widget's value, and a rerun of the script makes remote calls for an
    initial segment of that list only. *)
Theorem collected_configs_bounded fe w :
  widget_contract fe →
  1 ≤ length (collect_agent_configs fe) ≤ 10 ∧
  length (collect_agent_configs fe) = Z.to_nat (number_of_agents fe) ∧
  ∃ w' evs k,
    script fe w = (w', inr tt) ∧
    trace w' = trace w ++ evs ∧
    k ≤ length (collect_agent_configs fe) ∧
    (calls evs).*2
      = (λ c, prompt_of c (st_text_area fe "User Input"))
          <$> take k (collect_agent_configs fe).
Proof.
  intros Hwidget.
  pose proof (Hwidget 1 10 1 ltac:(lia))%Z as Hn. fold (number_of_agents fe) in Hn.
  rewrite collect_agent_configs_length.
  split; [lia|]. split; [done|].
  unfold script. destruct (clicked fe).
  - destruct (handle_crew_creation_outcome (collect_agent_configs fe)
                (st_text_area fe "User Input")
                (Some (st_text_input fe "Enter your GROQ API key")) w)
      as (x & evs & dc & Heq & (k & Hk & Hcalls) & _).
    rewrite Heq. eexists _, evs, k. split; [reflexivity|].
    rewrite <- collect_agent_configs_length. by repeat split.
  - exists w, [], 0. rewrite app_nil_r. repeat split. lia.
Qed.

(** C8. The collector is total: every index below the widget's value gets an
    entry, whose name and instructions are what was typed under the keys
    [name_i] and [instructions_i], or the empty string where nothing was
    typed.  The dispatcher applies no check of its own: when the constructor
    and the service accept what they are given, it builds an agent and makes
    one call for every collected entry, empty or repeated ones included. *)
Theorem empty_fields_collected_and_dispatched fe human_input m w :
  accepting →
  length (collect_agent_configs fe) = Z.to_nat (number_of_agents fe) ∧
  (∀ i, i < Z.to_nat (number_of_agents fe) →
     collect_agent_configs fe !! i
       = Some {| name := default "" (typed fe !! ("name_" +:+ pretty i));
                 instructions :=
                   default "" (typed fe !! ("instructions_" +:+ pretty i)) |}) ∧
  ∃ x results,
    length results = length (collect_agent_configs fe) ∧
    create_and_run_crew (collect_agent_configs fe) human_input m w
      = (extend w x
           (zip_with (run_event human_input m) (collect_agent_configs fe) results),
         inr (Some (agent_of m <$> collect_agent_configs fe), Some results)).
Proof.
  intros [Hagent Hrun].
  split; [apply collect_agent_configs_length|]. split.
  - intros i Hi. rewrite collect_agent_configs_spec, list_lookup_fmap.
    by rewrite lookup_seq_lt.
  - unfold create_and_run_crew.
    destruct (crew_loop_cases human_input m (collect_agent_configs fe) [] [] w)
      as [(x & new & Hlen & _ & Heq)
         |(x & k & c & new & failing & e & _ & _ & Hf & _)].
    + exists x, new. by rewrite Heq.
    + exfalso. destruct Hf as [[_ Hinit]|[_ [xk Hcall]]].
      * by rewrite Hagent in Hinit.
      * destruct (Hrun (agent_of m c) (prompt_of c human_input) xk) as (x' & r & Hok).
        congruence.
Qed.

End Facts.

(** ** The prompt *)

(** C4. The prompt sent for a configuration is its instructions, two line
    feeds, [Additional Context: ] and the shared context.  A run that returns
    its results has made exactly one call per configuration, in order, each
    with that prompt, and the result at an index is what the service
    answered to that call.  A run that gives up has made the calls of the
    entries before the failing one, and the failing call itself unless the
    constructor raised.  Against the echo service, the instructions
    [Summarize X] with the context [focus on Q3] make one call, with the
    prompt shown, and give the single output shown. *)
Theorem prompt_is_instructions_label_context :
  (∀ (X : Externals) cfgs human_input m w,
     let sent := λ c, (agent_of m c,
                       instructions c +:+ "

Additional Context: " +:+ human_input) in
     ∃ x evs v,
       create_and_run_crew cfgs human_input m w = (extend w x evs, inr v) ∧
       ((∃ rs,
           v = (Some (agent_of m <$> cfgs), Some rs) ∧
           length rs = length cfgs ∧
           calls evs = sent <$> cfgs ∧
           ∀ i c, cfgs !! i = Some c →
             ∃ r xi xi',
               rs !! i = Some r ∧
               Runner_run (sent c).1 (sent c).2 xi = (xi', inr r))
        ∨ (v = (None, None) ∧
           ∃ k c e,
             cfgs !! k = Some c ∧
             (Agent_init (name c) (instructions c) m = Some e ∧
              calls evs = sent <$> take k cfgs
              ∨ (∃ xk, Runner_run (sent c).1 (sent c).2 xk = (x, inl e)) ∧
                calls evs = sent <$> take (S k) cfgs)))) ∧
  create_and_run_crew (X:=echo_stub) [researcher] "focus on Q3" stub_model
    (world0 echo_stub 0)
  = ({| ext := (1 : @Ext echo_stub);
        environ := ∅;
        download_content := None;
        trace :=
          [EvRun (agent_of (X:=echo_stub) stub_model researcher)
             "Summarize X

Additional Context: focus on Q3"
             (inr {| final_output := "Summarize X

Additional Context: focus on Q3" |})] |},
     inr (Some [agent_of (X:=echo_stub) stub_model researcher],
          Some [ {| final_output := "Summarize X

Additional Context: focus on Q3" |} ])).
Proof.
  split; [|reflexivity].
  intros X cfgs human_input m w sent. unfold create_and_run_crew.
  destruct (crew_loop_cases human_input m cfgs [] [] w)
    as [(x & rs & Hlen & Hsrv & Heq)
       |(x & k & c & new & failing & e & Hk & Hlen & Hf & Heq)].
  - exists x, (zip_with (run_event human_input m) cfgs rs),
      (Some (agent_of m <$> cfgs), Some rs).
    split; [exact Heq|]. left. exists rs.
    split; [done|]. split; [done|].
    split; [by apply calls_run_events|].
    intros i c Hc. by apply (served_lookup human_input m cfgs (ext w) rs x).
  - eexists x, _, (None, None). split; [exact Heq|]. right.
    split; [done|]. exists k, c, e. split; [done|].
    pose proof (lookup_lt_Some _ _ _ Hk) as Hlt.
    assert (length new = length (take k cfgs)) as Hlen'
      by (rewrite length_take; lia).
    rewrite !calls_app, (calls_run_events _ _ _ _ Hlen').
    destruct Hf as [[-> Hinit]|[-> Hcall]].
    + left. split; [done|]. cbn. by rewrite app_nil_r.
    + right. split; [done|]. cbn. by rewrite (take_S_r _ _ _ Hk), fmap_app.
Qed.

(** ** The credential *)


(** ** Concrete runs *)

(** The report of the echo run over the single agent [researcher], as the
    download offers it. *)
Example echo_report_text :
  download_content
    (handle_crew_creation (X:=echo_stub) [researcher] "focus on Q3"
       (Some "gsk_secret") (world0 echo_stub 0)).1
  = Some "AUTONOMOUS CREW BUILDER - COMPLETE REPORT
==================================================

PART 1: CREW CONFIGURATION
==================================================
Timestamp: 2025-01-01 00:00:00

Additional Context:
focus on Q3

Agent Configurations:

Agent 1: Researcher
Instructions:
Summarize X
--------------------------------------------------

==================================================
PART 2: CREW RESULTS
==================================================
Timestamp: 2025-01-01 00:00:00

Results by Agent:

Agent 1: Researcher
Output:
Summarize X

Additional Context: focus on Q3
--------------------------------------------------
".
Proof. vm_compute. reflexivity. Qed.

(** The same run leaves the key in the process environment. *)
Example echo_run_environ :
  environ
    (handle_crew_creation (X:=echo_stub) [researcher] "focus on Q3"
       (Some "gsk_secret") (world0 echo_stub 0)).1 !! "OPENAI_API_KEY"
  = Some "gsk_secret".
Proof. reflexivity. Qed.

(** A run whose second call fails: one served call, the failing call, the
    message, and nothing for the third entry. *)
Example flaky_run_calls :
  (calls
     (trace (create_and_run_crew (X:=flaky_stub 1) [researcher; writer; writer]
               "focus on Q3" stub_model (world0 (flaky_stub 1) 0)).1)).*2
  = [prompt_of researcher "focus on Q3"; prompt_of writer "focus on Q3"].
Proof. reflexivity. Qed.

Lemma create_and_run_crew_results_aligned_witness :
  ∃ results,
    length results = 2 ∧
    trace (create_and_run_crew (X:=echo_stub) [researcher; writer] "focus on Q3"
             stub_model (world0 echo_stub 0)).1
      = zip_with (run_event (X:=echo_stub) "focus on Q3" stub_model)
          [researcher; writer] results.
Proof.
  edestruct (create_and_run_crew_results_aligned (X:=echo_stub)
               [researcher; writer] "focus on Q3" stub_model (world0 echo_stub 0))
    as (results & _ & Hlen & _ & _ & Htrace & _).
  - simpl. lia.
  - vm_compute. reflexivity.
  - exists results. split; [exact Hlen|exact Htrace].
Defined.

Lemma kth_failure_aborts_batch_witness :
  ∃ (w' : @World (flaky_stub 1)) (failing : list (@Event (flaky_stub 1))),
    create_and_run_crew (X:=flaky_stub 1) [researcher; writer; writer]
      "focus on Q3" stub_model (world0 (flaky_stub 1) 0) = (w', inr (None, None)) ∧
    length (calls (trace w')) = 1 + length (calls failing).
Proof.
  edestruct (kth_failure_aborts_batch (X:=flaky_stub 1)
               [researcher; writer; writer] "focus on Q3" stub_model
               (world0 (flaky_stub 1) 0) 1 writer)
    as (w' & failing & Hrun & _ & _ & _ & Hcalls).
  - reflexivity.
  - vm_compute. reflexivity.
  - right. split; vm_compute; reflexivity.
  - exists w', failing. split; [exact Hrun|]. rewrite Hcalls, length_app.
    reflexivity.
Defined.

Lemma missing_credential_no_dispatch_witness :
  calls (trace (handle_crew_creation (X:=echo_stub) [researcher] "focus on Q3"
                  (Some "") (world0 echo_stub 0)).1) = [].
Proof.
  apply (missing_credential_no_dispatch (X:=echo_stub) [researcher] "focus on Q3"
           (Some "") (world0 echo_stub 0)).
  right. reflexivity.
Defined.

Lemma report_layout_witness :
  ∃ text,
    download_content
      (handle_crew_creation (X:=echo_stub) [researcher; writer] "focus on Q3"
         (Some "gsk_secret") (world0 echo_stub 0)).1 = Some text.
Proof.
  edestruct (report_layout (X:=echo_stub) [researcher; writer] "focus on Q3"
               (Some "gsk_secret") (world0 echo_stub 0))
    as (rs & ts1 & ts2 & m & disp & _ & _ & _ & Htext & _).
  - vm_compute. reflexivity.
  - vm_compute. reflexivity.
  - vm_compute. reflexivity.
  - eexists. exact Htext.
Defined.

Lemma create_and_run_crew_repeatable_witness :
  (create_and_run_crew (X:=echo_stub) [researcher; writer] "focus on Q3" stub_model
     (create_and_run_crew (X:=echo_stub) [researcher; writer] "focus on Q3"
        stub_model (world0 echo_stub 0)).1).2
  = (create_and_run_crew (X:=echo_stub) [researcher; writer] "focus on Q3"
       stub_model (world0 echo_stub 0)).2.
Proof.
  apply (create_and_run_crew_repeatable (X:=echo_stub)).
  intros agent prompt x x'. reflexivity.
Defined.

Lemma collected_configs_bounded_witness :
  1 ≤ length (collect_agent_configs (blank_frontend 2)) ≤ 10.
Proof.
  apply (collected_configs_bounded (X:=echo_stub) (blank_frontend 2)
           (world0 echo_stub 0)).
  intros lo hi v Hv. simpl. lia.
Defined.

Lemma empty_fields_collected_and_dispatched_witness :
  collect_agent_configs (blank_frontend 2) !! 1 = Some blank_config.
Proof.
  apply (empty_fields_collected_and_dispatched (X:=echo_stub) (blank_frontend 2)
           "focus on Q3" stub_model (world0 echo_stub 0)).
  - split; [reflexivity|]. intros agent prompt x. eexists _, _. reflexivity.
  - vm_compute. lia.
Defined.

Lemma failed_run_keeps_download_content_witness :
  download_content
    (handle_crew_creation (X:=flaky_stub 0) [researcher] "focus on Q3"
       (Some "gsk_secret") (world_with_report (flaky_stub 0) 0)).1
  = Some "AUTONOMOUS CREW BUILDER - COMPLETE REPORT".
Proof.
  eapply (failed_run_keeps_download_content (X:=flaky_stub 0) [researcher]
            "focus on Q3" (Some "gsk_secret") (world_with_report (flaky_stub 0) 0)).
  - vm_compute. reflexivity.
  - vm_compute. reflexivity.
  - vm_compute. discriminate.
Defined.

(** * Further properties of the script *)

Section MoreFacts.

Context {X : Externals}.

Implicit Types (w : World) (evs : list Event) (m : Model Client).
Implicit Types (agent_configs cfgs : list AgentConfig) (human_input : string).

(** ** The results display, exactly *)

Lemma show_detailed_exact (rs : list RunResult) : ∀ pre cs w,
  length rs ≤ length cs →
  show_detailed (pre ++ cs) (enumerate_from (length pre) rs) w =
    (extend w (ext w) (imap (λ j, detail_event (length pre + j)) (zip cs rs)),
     inr tt).
Proof.
  induction rs as [|r rs IH]; intros pre cs w Hlen.
  - destruct cs; cbn; by rewrite extend_nil.
  - destruct cs as [|c cs]; [simpl in Hlen; lia|].
    cbn [enumerate_from show_detailed zip zip_with].
    rewrite bind_eq, getitem_middle, bind_eq, getitem_middle, bind_eq, emit_eq.
    rewrite (snoc_middle pre c cs), (length_snoc pre c), IH by (simpl in Hlen; lia).
    rewrite extend_extend, imap_cons. cbn [app].
    rewrite (imap_ext ((λ j, detail_event (length pre + j)) ∘ S)
               (λ j, detail_event (length (pre ++ [c]) + j)) (zip cs rs))
      by (intros j ? _; cbn; rewrite <- length_snoc; by rewrite Nat.add_succ_r).
    unfold detail_event at 3. by rewrite Nat.add_0_r.
Qed.

Lemma build_summary_exact (rs : list RunResult) : ∀ pre cs summary_data w,
  length rs ≤ length cs →
  build_summary (pre ++ cs) (enumerate_from (length pre) rs) summary_data w =
    (w, inr (summary_data
               ++ imap (λ j, summary_row (length pre + j)) (zip cs rs))).
Proof.
  induction rs as [|r rs IH]; intros pre cs summary_data w Hlen.
  - destruct cs; cbn; by rewrite app_nil_r.
  - destruct cs as [|c cs]; [simpl in Hlen; lia|].
    cbn [enumerate_from build_summary zip zip_with].
    rewrite bind_eq, getitem_middle, bind_eq, getitem_middle.
    rewrite (snoc_middle pre c cs), (length_snoc pre c), IH by (simpl in Hlen; lia).
    rewrite imap_cons, <- app_assoc. cbn [app].
    rewrite (imap_ext ((λ j, summary_row (length pre + j)) ∘ S)
               (λ j, summary_row (length (pre ++ [c]) + j)) (zip cs rs))
      by (intros j ? _; cbn; rewrite <- length_snoc; by rewrite Nat.add_succ_r).
    unfold summary_row at 3. by rewrite Nat.add_0_r.
Qed.

(** ** [handle_crew_creation], path by path *)

Lemma handle_first_steps cfgs human_input key w :
  truthy (Some key) = true →
  has_nul key = false →
  handle_crew_creation cfgs human_input (Some key) w =
    match AsyncOpenAI_init (<["OPENAI_API_KEY" := key]> (environ w)) groq_base_url with
    | inl e =>
        (extend (client_world w key) (ext w)
           [EvError (crew_error e); EvError check_key_message], inr tt)
    | inr client =>
        try_except
          ('(tasklist, results) ←
             create_and_run_crew cfgs human_input (groq_model client);
           match tasklist with
           | None => mret tt
           | Some _ =>
               rs ← iterable results;
               show_detailed cfgs (enumerate rs);;
               rs ← iterable results;
               summary_data ← build_summary cfgs (enumerate rs) [];
               show_dataframe summary_data;;
               timestamp ← now_strftime;
               let combined_text := report_part1 timestamp human_input in
               let combined_text := report_configs (enumerate cfgs) combined_text in
               timestamp ← now_strftime;
               let combined_text := combined_text +:+ report_part2 timestamp in
               rs ← iterable results;
               combined_text ← report_results cfgs (enumerate rs) combined_text;
               session_state_set_download_content combined_text
           end)
          (λ e, st_error (crew_error e);; st_error check_key_message)
          (client_world w key)
    end.
Proof.
  intros Hkey Hnul. unfold handle_crew_creation. rewrite Hkey. cbn [negb].
  unfold try_except, crew_creation_try.
  rewrite bind_eq. cbn [as_str]. rewrite ret_eq, bind_eq.
  rewrite environ_set_key, Hnul, bind_eq. unfold AsyncOpenAI at 1.
  cbn [environ ext download_content trace]. fold (client_world w key).
  destruct (AsyncOpenAI_init _ _) as [e|client]; [|reflexivity].
  rewrite bind_eq. unfold st_error. rewrite !emit_eq, extend_extend.
  reflexivity.
Qed.

(** The client constructor raises: the key stays in the environment, the two
    general messages are shown, nothing is dispatched or stored. *)
Lemma handle_client_failure cfgs human_input key w e :
  truthy (Some key) = true →
  has_nul key = false →
  AsyncOpenAI_init (<["OPENAI_API_KEY" := key]> (environ w)) groq_base_url = inl e →
  handle_crew_creation cfgs human_input (Some key) w =
    (extend (client_world w key) (ext w)
       [EvError (crew_error e); EvError check_key_message], inr tt).
Proof. intros Hkey Hnul Hclient. by rewrite handle_first_steps, Hclient. Qed.

(** The dispatcher gave up: [handle_crew_creation] returns at once, in the
    world the dispatcher left. *)
Lemma handle_dispatch_failure cfgs human_input key w client w2 res :
  truthy (Some key) = true →
  has_nul key = false →
  AsyncOpenAI_init (<["OPENAI_API_KEY" := key]> (environ w)) groq_base_url
    = inr client →
  create_and_run_crew cfgs human_input (groq_model client) (client_world w key)
    = (w2, inr (None, res)) →
  handle_crew_creation cfgs human_input (Some key) w = (w2, inr tt).
Proof.
  intros Hkey Hnul Hclient Hrun. rewrite handle_first_steps, Hclient by done.
  unfold try_except. by rewrite bind_eq, Hrun.
Qed.

(** The dispatcher served every entry: the two tabs are drawn, and unless the
    table raises the clock is read twice and the report is stored. *)
Lemma handle_dispatch_success cfgs human_input key w client w2 al rs :
  truthy (Some key) = true →
  has_nul key = false →
  AsyncOpenAI_init (<["OPENAI_API_KEY" := key]> (environ w)) groq_base_url
    = inr client →
  create_and_run_crew cfgs human_input (groq_model client) (client_world w key)
    = (w2, inr (Some al, Some rs)) →
  length rs = length cfgs →
  handle_crew_creation cfgs human_input (Some key) w =
    match st_dataframe (imap summary_row (zip cfgs rs)) with
    | Some e =>
        (extend w2 (ext w2)
           (imap detail_event (zip cfgs rs)
              ++ [EvError (crew_error e); EvError check_key_message]), inr tt)
    | None =>
        let '(x1, ts1) := datetime_now (ext w2) in
        let '(x2, ts2) := datetime_now x1 in
        ({| ext := x2;
            environ := environ w2;
            download_content :=
              Some (unlines (report_lines cfgs human_input rs ts1 ts2));
            trace := trace w2 ++ imap detail_event (zip cfgs rs)
                       ++ [EvDataframe (imap summary_row (zip cfgs rs))] |},
         inr tt)
    end.
Proof.
  intros Hkey Hnul Hclient Hrun Hlen. rewrite handle_first_steps, Hclient by done.
  unfold try_except. rewrite bind_eq, Hrun. cbn [iterable].
  rewrite bind_eq, ret_eq, bind_eq. unfold enumerate.
  rewrite (show_detailed_exact rs [] cfgs) by lia.
  rewrite bind_eq, ret_eq, bind_eq.
  rewrite (build_summary_exact rs [] cfgs) by lia.
  cbn [app length]. rewrite bind_eq.
  unfold show_dataframe.
  destruct (st_dataframe _) as [e|].
  - unfold raise. rewrite bind_eq. unfold st_error.
    rewrite !emit_eq, !extend_extend. reflexivity.
  - rewrite emit_eq, extend_extend, bind_eq.
    unfold now_strftime at 1. cbn [ext extend].
    destruct (datetime_now (ext w2)) as [x1 ts1].
    rewrite bind_eq. unfold now_strftime at 1. cbn [ext].
    destruct (datetime_now x1) as [x2 ts2].
    rewrite bind_eq, ret_eq, bind_eq.
    rewrite (report_results_lines rs [] cfgs) by lia.
    cbn [app length]. rewrite report_text_lines.
    unfold session_state_set_download_content.
    cbn [ext environ download_content trace extend]. reflexivity.
Qed.

(** ** More on the dispatcher *)

(** The locals with which the loop starts are only prepended to what it
    returns. *)
Lemma crew_loop_locals human_input m cfgs : ∀ al rs w,
  crew_loop human_input m cfgs al rs w =
    match crew_loop human_input m cfgs [] [] w with
    | (w', inr (Some al', Some rs')) => (w', inr (Some (al ++ al'), Some (rs ++ rs')))
    | other => other
    end.
Proof.
  induction cfgs as [|c cfgs IH]; intros al rs w.
  - cbn. by rewrite !app_nil_r.
  - destruct (pass_outcome_total human_input m c w) as (w1 & out & Hp).
    cbn [crew_loop]. rewrite !bind_eq.
    rewrite (crew_body_outcome _ _ _ al rs _ _ _ Hp).
    rewrite (crew_body_outcome _ _ _ [] [] _ _ _ Hp).
    destruct out as [e|r]; [done|].
    rewrite (IH (al ++ [agent_of m c]) (rs ++ [r])).
    rewrite (IH ([] ++ [agent_of m c]) ([] ++ [r])).
    destruct (crew_loop human_input m cfgs [] [] w1)
      as [w' [e|[[al'|] [rs'|]]]]; try done.
    cbn [app]. by rewrite <- !app_assoc.
Qed.

Lemma crew_loop_app_failure human_input m l1 l2 : ∀ al rs w w1,
  crew_loop human_input m l1 al rs w = (w1, inr (None, None)) →
  crew_loop human_input m (l1 ++ l2) al rs w = (w1, inr (None, None)).
Proof.
  induction l1 as [|c l1 IH]; intros al rs w w1 Hrun; [done|].
  destruct (pass_outcome_total human_input m c w) as (w' & out & Hp).
  cbn [crew_loop app] in *.
  rewrite bind_eq, (crew_body_outcome _ _ _ al rs _ _ _ Hp) in *.
  destruct out as [e|r]; [done|]. by apply IH.
Qed.

(** X1. Every [Exception] that the agent constructor or the remote call
    raises is caught inside the loop, so that [create_and_run_crew] then
    returns; it never touches the process environment or the session state,
    and what it returns is [(None, None)] or a list of agents and a list of
    results, both as long as the input. *)
Theorem dispatcher_returns_all_or_nothing cfgs human_input m w :
  ∃ w' v,
    create_and_run_crew cfgs human_input m w = (w', inr v) ∧
    environ w' = environ w ∧
    download_content w' = download_content w ∧
    (v = (None, None)
     ∨ ∃ al rs, v = (Some al, Some rs) ∧
                length al = length cfgs ∧ length rs = length cfgs).
Proof.
  unfold create_and_run_crew.
  destruct (crew_loop_cases human_input m cfgs [] [] w)
    as [(x & new & Hlen & _ & Heq)
       |(x & k & c & new & failing & e & _ & _ & _ & Heq)];
    rewrite Heq; eexists _, _; (split; [reflexivity|]); split; try done;
    split; try done.
  - right. eexists _, _. split; [reflexivity|].
    by rewrite length_app, length_fmap.
  - by left.
Qed.

(** X2. Entries after a failing one have no influence: when the dispatcher
    gives up on a list, it gives up on every extension of that list, in the
    same state and after the same calls. *)
Theorem dispatch_failure_ignores_rest l1 l2 human_input m w w1 :
  create_and_run_crew l1 human_input m w = (w1, inr (None, None)) →
  create_and_run_crew (l1 ++ l2) human_input m w = (w1, inr (None, None)).
Proof. apply crew_loop_app_failure. Qed.

(** X3. Dispatching a concatenation is dispatching its first part and then,
    from the state that run left, its second part: when both succeed the
    agents and the results are concatenated, and when the second part fails
    the whole run fails in the state the second part left. *)
Theorem dispatch_concatenation l1 l2 human_input m w w1 al1 rs1 :
  create_and_run_crew l1 human_input m w = (w1, inr (Some al1, Some rs1)) →
  create_and_run_crew (l1 ++ l2) human_input m w =
    match create_and_run_crew l2 human_input m w1 with
    | (w2, inr (Some al2, Some rs2)) =>
        (w2, inr (Some (al1 ++ al2), Some (rs1 ++ rs2)))
    | other => other
    end.
Proof.
  unfold create_and_run_crew. intros Hrun.
  rewrite (crew_loop_app _ _ _ _ _ _ _ _ _ _ Hrun).
  apply crew_loop_locals.
Qed.

Lemma crew_loop_served human_input m cfgs x : ∀ rs w al acc,
  served human_input m (ext w) cfgs rs x →
  crew_loop human_input m cfgs al acc w =
    (extend w x (zip_with (run_event human_input m) cfgs rs),
     inr (Some (al ++ (agent_of m <$> cfgs)), Some (acc ++ rs))).
Proof.
  induction cfgs as [|c cfgs IH]; intros [|r rs] w al acc Hsrv; try done.
  - cbn in Hsrv. subst x. cbn. by rewrite extend_nil, !app_nil_r.
  - destruct Hsrv as (x1 & Hinit & Hcall & Hsrv).
    cbn [crew_loop]. rewrite bind_eq.
    rewrite (crew_body_outcome _ _ _ al acc _ _ _
               (pass_returned human_input m c w x1 r Hinit Hcall)).
    rewrite (IH rs (extend w x1 [run_event human_input m c r]) _ _ Hsrv).
    rewrite extend_extend. cbn. by rewrite <- !app_assoc.
Qed.

(** X4. The dispatcher succeeds whenever the constructor accepts every entry
    and the service answers every call, made one after the other from the
    current state: it then returns exactly those answers, in order. *)
Theorem served_crew_is_returned cfgs human_input m w rs x :
  served human_input m (ext w) cfgs rs x →
  create_and_run_crew cfgs human_input m w =
    (extend w x (zip_with (run_event human_input m) cfgs rs),
     inr (Some (agent_of m <$> cfgs), Some rs)).
Proof.
  intros Hsrv. unfold create_and_run_crew.
  by rewrite (crew_loop_served _ _ _ _ _ _ [] [] Hsrv).
Qed.

(** ** Every invocation follows one of the paths *)

Lemma client_world_trace w key evs x :
  trace (extend (client_world w key) x evs)
    = trace w ++ EvClient groq_base_url :: evs.
Proof. cbn. by rewrite <- app_assoc. Qed.

Lemma handle_path_total cfgs human_input key w :
  ∃ w' evs,
    handle_path cfgs human_input key w w' evs ∧
    handle_crew_creation cfgs human_input key w = (w', inr tt) ∧
    trace w' = trace w ++ evs.
Proof.
  destruct (truthy key) eqn:Hkey.
  2:{ eexists _, _. split; [by apply path_missing_key|].
      unfold handle_crew_creation. rewrite Hkey. by split. }
  destruct key as [k|]; [|done].
  destruct (has_nul k) eqn:Hnul.
  { eexists _, _. split; [by eapply path_key_rejected|].
    split; [by apply handle_nul_key|]. reflexivity. }
  destruct (AsyncOpenAI_init (<["OPENAI_API_KEY" := k]> (environ w)) groq_base_url)
    as [e|client] eqn:Hclient.
  { eexists _, _. split; [by eapply path_client_failed|].
    split; [by apply handle_client_failure|]. apply client_world_trace. }
  destruct (crew_loop_summary human_input (groq_model client) cfgs [] []
              (client_world w k))
    as (x & evs & v & Heq & (j & Hj & Hcalls) & Hv).
  destruct Hv as [[-> (e & Herr)]|(rs & Hlen & Hsrv & -> & ->)].
  { eexists _, _. split; [by eapply path_dispatch_failed|].
    split; [by eapply handle_dispatch_failure|]. apply client_world_trace. }
  cbn [app ext client_world] in Heq, Hsrv.
  pose proof (handle_dispatch_success cfgs human_input k w client _ _ rs
                Hkey Hnul Hclient Heq Hlen) as Hrun.
  destruct (st_dataframe (imap summary_row (zip cfgs rs))) as [e|] eqn:Htable.
  { eexists _, _. split; [by eapply path_table_failed|].
    split; [by rewrite Hrun, extend_extend|]. apply client_world_trace. }
  cbn [ext extend] in Hrun.
  destruct (datetime_now x) as [x1 ts1] eqn:Hts1.
  destruct (datetime_now x1) as [x2 ts2] eqn:Hts2.
  eexists _, _. split; [by eapply path_stored|].
  split; [|reflexivity].
  rewrite Hrun. cbn. by rewrite <- !app_assoc.
Qed.

Lemma handle_path_of_run cfgs human_input key w w' v evs :
  handle_crew_creation cfgs human_input key w = (w', v) →
  trace w' = trace w ++ evs →
  handle_path cfgs human_input key w w' evs.
Proof.
  intros Hrun Htrace.
  destruct (handle_path_total cfgs human_input key w)
    as (w1 & evs1 & Hpath & Heq & Htrace1).
  rewrite Heq in Hrun. injection Hrun as <- <-.
  rewrite Htrace1 in Htrace. apply app_inv_head in Htrace. by subst evs1.
Qed.

Lemma Forall_imap_display {A : Type} (l : list A) : ∀ f : nat → A → Event,
  (∀ i a, is_display (f i a)) → Forall is_display (imap f l).
Proof.
  induction l as [|a l IH]; intros f Hf; [constructor|].
  rewrite imap_cons. constructor; [apply Hf|]. apply IH. intros i ?. apply Hf.
Qed.

Lemma detail_events_silent (l : list (AgentConfig * RunResult)) :
  calls (imap detail_event l) = [] ∧ errors (imap detail_event l) = [].
Proof. apply display_silent, Forall_imap_display. by intros i cr. Qed.

(** The error messages of each path. *)
Lemma handle_path_errors cfgs human_input key w w' evs :
  handle_path cfgs human_input key w w' evs →
  errors evs = []
  ∨ errors evs = [missing_key_message]
  ∨ (∃ e, errors evs = [creating_error e])
  ∨ (∃ e, errors evs = [crew_error e; check_key_message]).
Proof.
  destruct 1 as [?|k|k e|k client x evs e j ? ? ? ? ? ? Herr|k client x rs e
                |k client x rs].
  - right. by left.
  - do 3 right. by exists nul_error.
  - do 3 right. by exists e.
  - do 2 right. left. exists e. by rewrite errors_client.
  - do 3 right. exists e.
    rewrite errors_client, !errors_app, errors_run_events.
    by destruct (detail_events_silent (zip cfgs rs)) as [_ ->].
  - left. rewrite errors_client, !errors_app, errors_run_events.
    by destruct (detail_events_silent (zip cfgs rs)) as [_ ->].
Qed.

(** ** What [handle_crew_creation] shows and stores *)

(** X5. Every [Exception] raised inside the [try] block, by the assignment
    to the environment, the client constructor or the table, is caught, so
    that [handle_crew_creation] then returns; and what it shows with
    [st.error] is one of four things: nothing; the request for the key; the
    dispatcher's single message; or the general message with its hint about
    the key. *)
Theorem handle_shows_one_of_four cfgs human_input key w :
  ∃ w' evs,
    handle_crew_creation cfgs human_input key w = (w', inr tt) ∧
    trace w' = trace w ++ evs ∧
    (errors evs = []
     ∨ errors evs = [missing_key_message]
     ∨ (∃ e, errors evs = [creating_error e])
     ∨ (∃ e, errors evs = [crew_error e; check_key_message])).
Proof.
  destruct (handle_path_total cfgs human_input key w)
    as (w' & evs & Hpath & Heq & Htrace).
  exists w', evs. split; [done|]. split; [done|].
  by eapply handle_path_errors.
Qed.

(** X6. After a run that showed no error, the page shows one expander per
    agent, in input order, labelled [Agent i+1: name] with its instructions
    and its output, then one table with a row per agent; the outputs shown
    are those of the calls made and those written to the stored report. *)
Theorem tabs_show_what_the_report_stores cfgs human_input key w w' v evs :
  handle_crew_creation cfgs human_input key w = (w', v) →
  trace w' = trace w ++ evs →
  errors evs = [] →
  ∃ rs m ts1 ts2,
    length rs = length cfgs ∧
    evs = EvClient groq_base_url
            :: zip_with (run_event human_input m) cfgs rs
            ++ imap (λ i cr,
                 EvExpander ("Agent " +:+ pretty (i + 1) +:+ ": " +:+ name cr.1)
                   (instructions cr.1) (final_output cr.2)) (zip cfgs rs)
            ++ [EvDataframe
                  (imap (λ i cr,
                     {| row_agent := pretty (i + 1) +:+ ": " +:+ name cr.1;
                        row_instructions := instructions cr.1;
                        row_output := final_output cr.2 |}) (zip cfgs rs))] ∧
    download_content w' = Some (unlines (report_lines cfgs human_input rs ts1 ts2)).
Proof.
  intros Hrun Htrace Hquiet.
  pose proof (handle_path_of_run _ _ _ _ _ _ _ Hrun Htrace) as Hpath.
  destruct Hpath as [?|k|k e|k client x evs e j ? ? ? ? ? ? Herr|k client x rs e
                    |k client x rs x1 ts1 x2 ts2 ? ? ? ? Hlen].
  - done.
  - done.
  - done.
  - by rewrite errors_client, Herr in Hquiet.
  - rewrite errors_client, !errors_app, errors_run_events in Hquiet.
    destruct (detail_events_silent (zip cfgs rs)) as [_ Hd].
    by rewrite Hd in Hquiet.
  - by exists rs, (groq_model client), ts1, ts2.
Qed.


(** X8. Both timestamps of the report are read when the report is assembled:
    the first from the clock as the last remote call left it, the second
    right after the first.  Neither is taken when the configuration was
    entered or when the run started. *)
Theorem report_timestamps_follow_calls cfgs human_input key w w' v evs :
  handle_crew_creation cfgs human_input key w = (w', v) →
  trace w' = trace w ++ evs →
  errors evs = [] →
  ∃ m rs x x1 ts1 ts2,
    served human_input m (ext w) cfgs rs x ∧
    datetime_now x = (x1, ts1) ∧
    datetime_now x1 = (ext w', ts2) ∧
    download_content w' = Some (unlines (report_lines cfgs human_input rs ts1 ts2)).
Proof.
  intros Hrun Htrace Hquiet.
  pose proof (handle_path_of_run _ _ _ _ _ _ _ Hrun Htrace) as Hpath.
  destruct Hpath as [?|k|k e|k client x evs e j ? ? ? ? ? ? Herr|k client x rs e
                    |k client x rs x1 ts1 x2 ts2 ? ? ? ? Hlen Hsrv ? Hts1 Hts2].
  - done.
  - done.
  - done.
  - by rewrite errors_client, Herr in Hquiet.
  - rewrite errors_client, !errors_app, errors_run_events in Hquiet.
    destruct (detail_events_silent (zip cfgs rs)) as [_ Hd].
    by rewrite Hd in Hquiet.
  - by exists (groq_model client), rs, x, x1, ts1, ts2.
Qed.




(** ** The widgets, key by key *)

Lemma name_key_inj (i j : nat) : "name_" +:+ pretty i = "name_" +:+ pretty j → i = j.
Proof. intros Heq. simpl in Heq. simplify_eq. by apply (inj pretty). Qed.

Lemma instructions_key_inj (i j : nat) :
  "instructions_" +:+ pretty i = "instructions_" +:+ pretty j → i = j.
Proof. intros Heq. simpl in Heq. simplify_eq. by apply (inj pretty). Qed.

Lemma name_key_not_instructions (i j : nat) :
  "name_" +:+ pretty i ≠ "instructions_" +:+ pretty j.
Proof. intros Heq. simpl in Heq. discriminate Heq. Qed.

Lemma config_at_type_into_name fe (i : nat) text (j : nat) :
  config_at (type_into fe ("name_" +:+ pretty i) text) j =
    if decide (i = j)
    then {| name := text; instructions := instructions (config_at fe j) |}
    else config_at fe j.
Proof.
  unfold config_at, type_into. cbn [typed name instructions].
  rewrite (lookup_insert_ne _ ("name_" +:+ pretty i) ("instructions_" +:+ pretty j))
    by apply name_key_not_instructions.
  destruct (decide (i = j)) as [->|Hne].
  - by rewrite lookup_insert_eq.
  - rewrite lookup_insert_ne; [done|]. intros Heq. by apply name_key_inj in Heq.
Qed.

Lemma config_at_type_into_instructions fe (i : nat) text (j : nat) :
  config_at (type_into fe ("instructions_" +:+ pretty i) text) j =
    if decide (i = j)
    then {| name := name (config_at fe j); instructions := text |}
    else config_at fe j.
Proof.
  unfold config_at, type_into. cbn [typed name instructions].
  rewrite (lookup_insert_ne _ ("instructions_" +:+ pretty i) ("name_" +:+ pretty j))
    by (intros Heq; by apply (name_key_not_instructions j i)).
  destruct (decide (i = j)) as [->|Hne].
  - by rewrite lookup_insert_eq.
  - rewrite lookup_insert_ne; [done|].
    intros Heq. by apply instructions_key_inj in Heq.
Qed.

Lemma fmap_seq_insert (f g : nat → AgentConfig) (n i : nat) (c : AgentConfig) :
  (∀ j, g j = if decide (i = j) then c else f j) →
  g <$> seq 0 n = <[i := c]> (f <$> seq 0 n).
Proof.
  intros Hg. apply list_eq. intros j.
  destruct (decide (i = j)) as [<-|Hne].
  - destruct (decide (i < n)) as [Hlt|Hge].
    + rewrite list_lookup_insert_eq by (by rewrite length_fmap, length_seq).
      rewrite list_lookup_fmap, lookup_seq_lt by done. cbn.
      rewrite Hg. by rewrite decide_True.
    + rewrite list_insert_ge by (rewrite length_fmap, length_seq; lia).
      by rewrite !list_lookup_fmap, lookup_seq_ge by lia.
  - rewrite list_lookup_insert_ne by done. rewrite !list_lookup_fmap.
    destruct (seq 0 n !! j) as [j'|] eqn:Hj; [|done].
    apply lookup_seq in Hj as [-> _]. cbn. rewrite Hg. by rewrite decide_False.
Qed.

(** X11. The widgets of the collector do not interfere.  Typing a name under
    [name_i] replaces the name of entry [i] and nothing else, typing under
    [instructions_i] replaces its instructions and nothing else; and text
    typed for an index at or beyond the number of agents is ignored. *)
Theorem typing_changes_one_entry fe (i : nat) text :
  collect_agent_configs (type_into fe ("name_" +:+ pretty i) text)
    = <[i := {| name := text; instructions := instructions (config_at fe i) |}]>
        (collect_agent_configs fe) ∧
  collect_agent_configs (type_into fe ("instructions_" +:+ pretty i) text)
    = <[i := {| name := name (config_at fe i); instructions := text |}]>
        (collect_agent_configs fe) ∧
  (Z.to_nat (number_of_agents fe) ≤ i →
     collect_agent_configs (type_into fe ("name_" +:+ pretty i) text)
       = collect_agent_configs fe ∧
     collect_agent_configs (type_into fe ("instructions_" +:+ pretty i) text)
       = collect_agent_configs fe).
Proof.
  assert (collect_agent_configs (type_into fe ("name_" +:+ pretty i) text)
    = <[i := {| name := text; instructions := instructions (config_at fe i) |}]>
        (collect_agent_configs fe)) as Hname.
  { rewrite !collect_agent_configs_spec. apply fmap_seq_insert. intros j.
    rewrite config_at_type_into_name. by destruct (decide (i = j)) as [->|]. }
  assert (collect_agent_configs (type_into fe ("instructions_" +:+ pretty i) text)
    = <[i := {| name := name (config_at fe i); instructions := text |}]>
        (collect_agent_configs fe)) as Hinstr.
  { rewrite !collect_agent_configs_spec. apply fmap_seq_insert. intros j.
    rewrite config_at_type_into_instructions. by destruct (decide (i = j)) as [->|]. }
  split; [exact Hname|]. split; [exact Hinstr|]. intros Hge.
  rewrite Hname, Hinstr.
  rewrite !list_insert_ge by (by rewrite collect_agent_configs_length). done.
Qed.

(** X12. Pressing the button while the key field is empty only shows the
    request for the key: the script passes the empty string, and nothing is
    dispatched, written or stored. *)
Theorem button_without_key_only_asks fe w :
  clicked fe = true →
  typed fe !! "Enter your GROQ API key" = None
  ∨ typed fe !! "Enter your GROQ API key" = Some "" →
  script fe w = (extend w (ext w) [EvError missing_key_message], inr tt).
Proof.
  intros Hclick Hkey. unfold script, st_text_input. rewrite Hclick.
  by destruct Hkey as [-> | ->].
Qed.

(** ** The download tab *)


End MoreFacts.

(** ** Concrete runs for the further properties *)

Lemma dispatch_failure_ignores_rest_witness :
  (create_and_run_crew (X:=flaky_stub 0) ([researcher] ++ [writer; writer])
     "focus on Q3" stub_model (world0 (flaky_stub 0) 0)).2
  = inr (None, None).
Proof.
  erewrite (dispatch_failure_ignores_rest (X:=flaky_stub 0) [researcher]
              [writer; writer] "focus on Q3" stub_model (world0 (flaky_stub 0) 0)).
  - reflexivity.
  - vm_compute. reflexivity.
Defined.

Lemma dispatch_concatenation_witness :
  ∃ rs,
    (create_and_run_crew (X:=echo_stub) ([researcher] ++ [writer])
       "focus on Q3" stub_model (world0 echo_stub 0)).2
    = inr (Some (agent_of (X:=echo_stub) stub_model <$> [researcher; writer]),
           Some rs) ∧
    length rs = 2.
Proof.
  erewrite (dispatch_concatenation (X:=echo_stub) [researcher] [writer]
              "focus on Q3" stub_model (world0 echo_stub 0)); cycle 1.
  - vm_compute. reflexivity.
  - eexists. split; [vm_compute; reflexivity|reflexivity].
Defined.

Lemma served_crew_is_returned_witness :
  (create_and_run_crew (X:=echo_stub) [researcher] "focus on Q3" stub_model
     (world0 echo_stub 0)).2
  = inr (Some [agent_of (X:=echo_stub) stub_model researcher],
         Some [ {| final_output := prompt_of researcher "focus on Q3" |} ]).
Proof.
  rewrite (served_crew_is_returned (X:=echo_stub) [researcher] "focus on Q3"
             stub_model (world0 echo_stub 0)
             [ {| final_output := prompt_of researcher "focus on Q3" |} ] 1).
  - reflexivity.
  - exists 1. split; [reflexivity|]. split; reflexivity.
Defined.

Lemma tabs_show_what_the_report_stores_witness :
  ∃ rs : list RunResult,
    length rs = 2 ∧
    ∃ ts1 ts2,
      download_content
        (handle_crew_creation (X:=echo_stub) [researcher; writer] "focus on Q3"
           (Some "gsk_secret") (world0 echo_stub 0)).1
      = Some (unlines (report_lines [researcher; writer] "focus on Q3" rs ts1 ts2)).
Proof.
  edestruct (tabs_show_what_the_report_stores (X:=echo_stub) [researcher; writer]
               "focus on Q3" (Some "gsk_secret") (world0 echo_stub 0))
    as (rs & m & ts1 & ts2 & Hlen & _ & Htext).
  - vm_compute. reflexivity.
  - vm_compute. reflexivity.
  - vm_compute. reflexivity.
  - exists rs. split; [exact Hlen|]. exists ts1, ts2. exact Htext.
Defined.


Lemma report_timestamps_follow_calls_witness :
  ∃ x x1 ts1 ts2,
    datetime_now (Externals:=echo_stub) x = (x1, ts1) ∧
    datetime_now (Externals:=echo_stub) x1
      = (ext (handle_crew_creation (X:=echo_stub) [researcher; writer]
                "focus on Q3" (Some "gsk_secret") (world0 echo_stub 0)).1, ts2).
Proof.
  edestruct (report_timestamps_follow_calls (X:=echo_stub) [researcher; writer]
               "focus on Q3" (Some "gsk_secret") (world0 echo_stub 0))
    as (m & rs & x & x1 & ts1 & ts2 & _ & Hts1 & Hts2 & _).
  - vm_compute. reflexivity.
  - vm_compute. reflexivity.
  - vm_compute. reflexivity.
  - exists x, x1, ts1, ts2. split; [exact Hts1|exact Hts2].
Defined.



Lemma typing_changes_one_entry_witness :
  collect_agent_configs (type_into (blank_frontend 2) ("name_" +:+ pretty 5) "Editor")
  = collect_agent_configs (blank_frontend 2).
Proof.
  apply (typing_changes_one_entry (blank_frontend 2) 5 "Editor").
  vm_compute. lia.
Defined.

Lemma button_without_key_only_asks_witness :
  script (X:=echo_stub) (blank_frontend 2) (world0 echo_stub 0)
  = (extend (world0 echo_stub 0) 0 [EvError missing_key_message], inr tt).
Proof.
  apply (button_without_key_only_asks (X:=echo_stub) (blank_frontend 2)
           (world0 echo_stub 0)).
  - reflexivity.
  - left. reflexivity.
Defined.

(** A rerun whose dispatch fails while an earlier report is stored: the
    button still carries the earlier report. *)
Example stale_report_still_offered :
  match (rerun (X:=flaky_stub 0) stub_compact
           (type_into (blank_frontend 1) "Enter your GROQ API key" "gsk_secret")
           (world_with_report (flaky_stub 0) 0)).2 with
  | inr (Some b) =>
      button_data b = "AUTONOMOUS CREW BUILDER - COMPLETE REPORT" ∧
      button_file_name b = "crew_report_20250101_000000.txt"
  | _ => False
  end.
Proof. vm_compute. split; reflexivity. Qed.

